(** * FieldDependencies: a shallow embedding of src/field-dependencies.js

    The module is a sloppy-mode script: both IIFEs are called without a
    receiver, so [this] (and [that]) is the global object in each of them.
    Hence [statesContainer], [modifiersContainer], [getElementKey],
    [elements] and [get] all live on one object, and [setElementKeyCallback]
    replaces the very [getElementKey] slot that [elementsContainer.get] and
    [resolve] read.  The model has one record [St] for that global state.

    Objects with identity ([Element], [State], [Modifier]) live in three
    arenas addressed by [nat]; a reference is an index.  A reference with no
    arena entry behaves as [undefined]: touching it throws [TypeError].

    JS objects used as maps keep their JS semantics:
    - every such object inherits the members of [Object.prototype]
      ([object_member]): reading [obj[k]] for such a name that is not an own
      property yields a (truthy) built-in, not [undefined];
    - an assignment [obj[k] = v] with [k = "__proto__"] replaces the
      object's prototype instead of creating an own property;
    - [for (var i in obj)] visits the own properties whose names are array
      indices first, in ascending numeric order, then the others in
      creation order ([forin_order]).
    The template registries [statesContainer.states] and
    [modifiersContainer.modifiers] are a [gmap] of own properties plus the
    template assigned to "__proto__" (if any), whose own properties then
    shadow [Object.prototype]'s.  [elementsContainer.elements] is a [gmap]
    of own properties; its prototype is never read, but an own property
    "hasOwnProperty" shadows the method [get] calls.  An Element's
    [states]/[modifiers] objects are association lists of own properties in
    creation order.  A user callback is a function with no [callback]
    property.

    The host page is a world [W]: a State callback reads it through the host
    reference it is given, a Modifier callback transforms it.  jQuery's
    [$element.change(handler)] is a list of (host, Element) registrations;
    triggering a change on a host runs the registered handlers in order.
    The cascade (fan-out -> publish -> execute -> fan-out ..) has no cycle
    guard in the source; the model bounds its depth with [fuel] and raises
    [OutOfFuel] where JS would overflow the stack.  A ghost [trace] records
    each [publish] call and each mutation callback run. *)

From stdpp Require Import base gmap strings list.

Inductive exn := TypeError | OutOfFuel.

Inductive res (A : Type) := Ok (a : A) | Exc (e : exn).
Arguments Ok {A} a.
Arguments Exc {A} e.

Inductive event :=
| EvPublish (state : nat)      (* State.publish was called on this State *)
| EvMutate (modifier : nat).   (* this Modifier's callback was run *)

Definition Host := nat.

(** ** Property names *)

(** The members of [Object.prototype], which every plain object inherits. *)
Definition object_prototype_names : list string :=
  ["constructor"; "__defineGetter__"; "__defineSetter__"; "hasOwnProperty";
   "__lookupGetter__"; "__lookupSetter__"; "isPrototypeOf"; "propertyIsEnumerable";
   "toString"; "valueOf"; "__proto__"; "toLocaleString"].

Definition object_member (k : string) : bool :=
  existsb (String.eqb k) object_prototype_names.

(** The value of a string of decimal digits, [None] if a character is not a
    digit. *)
Fixpoint decimal_value (k : string) (acc : N) : option N :=
  match k with
  | EmptyString => Some acc
  | String c k' =>
      let d := Ascii.N_of_ascii c in
      if (48 <=? d)%N && (d <=? 57)%N then decimal_value k' (acc * 10 + (d - 48))%N else None
  end.

(** Array indices: the canonical numerals (no leading zero) of
    0 .. 2^32 - 2. *)
Definition array_index (k : string) : option N :=
  match k with
  | EmptyString => None
  | String c k' =>
      if (Ascii.N_of_ascii c =? 48)%N && negb (String.eqb k' "") then None
      else match decimal_value k 0 with
           | Some n => if (n <? 4294967295)%N then Some n else None
           | None => None
           end
  end.

Definition is_index {A} (p : string * A) : bool :=
  match array_index (fst p) with Some _ => true | None => false end.

Definition idx {A} (p : string * A) : N :=
  match array_index (fst p) with Some n => n | None => 0%N end.

Fixpoint index_insert {A} (p : string * A) (l : list (string * A)) : list (string * A) :=
  match l with
  | [] => [p]
  | q :: l' => if (idx p <=? idx q)%N then p :: l else q :: index_insert p l'
  end.

Definition index_sort {A} (l : list (string * A)) : list (string * A) :=
  fold_right index_insert [] l.

(** The order in which [for (var i in obj)] visits the own properties [l]
    (given in creation order) of a plain object. *)
Definition forin_order {A} (l : list (string * A)) : list (string * A) :=
  index_sort (List.filter is_index l) ++ List.filter (fun p => negb (is_index p)) l.

(** ** JS objects with own properties in creation order *)

Fixpoint js_get (k : string) (l : list (string * nat)) : option nat :=
  match l with
  | [] => None
  | (k', v) :: l' => if String.eqb k k' then Some v else js_get k l'
  end.

Fixpoint js_set (k : string) (v : nat) (l : list (string * nat)) : list (string * nat) :=
  match l with
  | [] => [(k, v)]
  | (k', v') :: l' => if String.eqb k k' then (k', v) :: l' else (k', v') :: js_set k v l'
  end.

(** [obj[k]] on an Element's [states] or [modifiers] object, whose
    prototype is [Object.prototype]: an own property (an instance), else an
    inherited built-in, else [undefined]. *)
Inductive js_val :=
| JUndefined
| JInstance (i : nat)
| JInherited.

Definition js_lookup (k : string) (l : list (string * nat)) : js_val :=
  match js_get k l with
  | Some v => JInstance v
  | None => if object_member k then JInherited else JUndefined
  end.

(** [obj[k] = v] on [elementsContainer.elements]. *)
Definition assign_property (k : string) (v : nat) (m : gmap string nat) : gmap string nat :=
  if String.eqb k "__proto__" then m        (* sets the prototype; no own property *)
  else <[k := v]> m.

Section FieldDependencies.

Context {W : Type}.
(** [$element.attr('id')], the default Element key. *)
Context (attr_id : Host -> string).

Definition StateCallback := Host -> W -> bool.
Definition ModifierCallback := Host -> W -> W.

Record Element := mkElement {
  el_host : Host;
  el_states : list (string * nat);
  el_modifiers : list (string * nat)
}.

(** [callback] is [None] for [undefined]. *)
Record State := mkState {
  st_element : option nat;
  st_callback : option StateCallback;
  st_modifiers : list nat
}.

Record Modifier := mkModifier {
  md_element : option nat;
  md_callback : option ModifierCallback;
  md_states : list nat
}.

Record St := mkSt {
  state_templates : gmap string StateCallback;       (* own properties of statesContainer.states *)
  state_proto : option StateCallback;                (* the State assigned to states.__proto__ *)
  modifier_templates : gmap string ModifierCallback; (* own properties of modifiersContainer.modifiers *)
  modifier_proto : option ModifierCallback;          (* the Modifier assigned to modifiers.__proto__ *)
  getElementKey : Host -> string;
  elements : gmap string nat;                        (* own properties of elementsContainer.elements *)
  el_heap : list Element;
  st_heap : list State;
  md_heap : list Modifier;
  handlers : list (Host * nat);                      (* jQuery change handlers *)
  dom : W;
  trace : list event
}.

Definition init (w : W) : St :=
  mkSt ∅ None ∅ None attr_id ∅ [] [] [] [] w [].

(** ** The state-and-exception monad; a throw keeps the effects so far. *)

Definition M (A : Type) := St -> res A * St.

Definition ret {A} (a : A) : M A := fun s => (Ok a, s).
Definition throw {A} (e : exn) : M A := fun s => (Exc e, s).
Definition bind {A B} (m : M A) (k : A -> M B) : M B :=
  fun s => match m s with
           | (Ok a, s') => k a s'
           | (Exc e, s') => (Exc e, s')
           end.

Notation "x <- m ;; k" := (bind m (fun x => k))
  (at level 100, m at next level, right associativity).
Notation "m ;; k" := (bind m (fun _ : unit => k))
  (at level 100, right associativity).

Definition gets {A} (f : St -> A) : M A := fun s => (Ok (f s), s).
Definition modify (f : St -> St) : M unit := fun s => (Ok tt, f s).

Fixpoint for_each {A} (l : list A) (f : A -> M unit) : M unit :=
  match l with
  | [] => ret tt
  | x :: l' => f x ;; for_each l' f
  end.

(** ** Record updates *)

Definition set_state_templates t s :=
  mkSt t (state_proto s) (modifier_templates s) (modifier_proto s) (getElementKey s) (elements s)
       (el_heap s) (st_heap s) (md_heap s) (handlers s) (dom s) (trace s).
Definition set_state_proto p s :=
  mkSt (state_templates s) p (modifier_templates s) (modifier_proto s) (getElementKey s) (elements s)
       (el_heap s) (st_heap s) (md_heap s) (handlers s) (dom s) (trace s).
Definition set_modifier_templates t s :=
  mkSt (state_templates s) (state_proto s) t (modifier_proto s) (getElementKey s) (elements s)
       (el_heap s) (st_heap s) (md_heap s) (handlers s) (dom s) (trace s).
Definition set_modifier_proto p s :=
  mkSt (state_templates s) (state_proto s) (modifier_templates s) p (getElementKey s) (elements s)
       (el_heap s) (st_heap s) (md_heap s) (handlers s) (dom s) (trace s).
Definition set_getElementKey k s :=
  mkSt (state_templates s) (state_proto s) (modifier_templates s) (modifier_proto s) k (elements s)
       (el_heap s) (st_heap s) (md_heap s) (handlers s) (dom s) (trace s).
Definition set_elements es s :=
  mkSt (state_templates s) (state_proto s) (modifier_templates s) (modifier_proto s) (getElementKey s) es
       (el_heap s) (st_heap s) (md_heap s) (handlers s) (dom s) (trace s).
Definition set_el_heap h s :=
  mkSt (state_templates s) (state_proto s) (modifier_templates s) (modifier_proto s) (getElementKey s)
       (elements s) h (st_heap s) (md_heap s) (handlers s) (dom s) (trace s).
Definition set_st_heap h s :=
  mkSt (state_templates s) (state_proto s) (modifier_templates s) (modifier_proto s) (getElementKey s)
       (elements s) (el_heap s) h (md_heap s) (handlers s) (dom s) (trace s).
Definition set_md_heap h s :=
  mkSt (state_templates s) (state_proto s) (modifier_templates s) (modifier_proto s) (getElementKey s)
       (elements s) (el_heap s) (st_heap s) h (handlers s) (dom s) (trace s).
Definition set_handlers hs s :=
  mkSt (state_templates s) (state_proto s) (modifier_templates s) (modifier_proto s) (getElementKey s)
       (elements s) (el_heap s) (st_heap s) (md_heap s) hs (dom s) (trace s).
Definition set_dom w s :=
  mkSt (state_templates s) (state_proto s) (modifier_templates s) (modifier_proto s) (getElementKey s)
       (elements s) (el_heap s) (st_heap s) (md_heap s) (handlers s) w (trace s).
Definition set_trace tr s :=
  mkSt (state_templates s) (state_proto s) (modifier_templates s) (modifier_proto s) (getElementKey s)
       (elements s) (el_heap s) (st_heap s) (md_heap s) (handlers s) (dom s) tr.

(** ** Arena access: a missing entry is [undefined]. *)

Definition deref_el (e : nat) : M Element :=
  fun s => match el_heap s !! e with
           | Some el => (Ok el, s)
           | None => (Exc TypeError, s)
           end.
Definition deref_state (x : nat) : M State :=
  fun s => match st_heap s !! x with
           | Some st => (Ok st, s)
           | None => (Exc TypeError, s)
           end.
Definition deref_modifier (m : nat) : M Modifier :=
  fun s => match md_heap s !! m with
           | Some md => (Ok md, s)
           | None => (Exc TypeError, s)
           end.

Definition write_el (e : nat) (el : Element) : M unit :=
  modify (fun s => set_el_heap (<[e := el]> (el_heap s)) s).
Definition write_state (x : nat) (st : State) : M unit :=
  modify (fun s => set_st_heap (<[x := st]> (st_heap s)) s).
Definition write_modifier (m : nat) (md : Modifier) : M unit :=
  modify (fun s => set_md_heap (<[m := md]> (md_heap s)) s).

Definition alloc_el (el : Element) : M nat :=
  fun s => (Ok (length (el_heap s)), set_el_heap (el_heap s ++ [el]) s).
Definition alloc_state (st : State) : M nat :=
  fun s => (Ok (length (st_heap s)), set_st_heap (st_heap s ++ [st]) s).
Definition alloc_modifier (md : Modifier) : M nat :=
  fun s => (Ok (length (md_heap s)), set_md_heap (md_heap s ++ [md]) s).

Definition log (ev : event) : M unit :=
  modify (fun s => set_trace (trace s ++ [ev]) s).

(** ** statesContainer / modifiersContainer (lines 7-54)

    [addState(name, cb)] stores [new State(cb)] under [name]; the model
    keeps its callback.  [get] reads [this.states[key].callback] and
    returns [new State(that callback)], a fresh instance. *)

(** [registry[key]] for a name that is not an own property of the
    registry: looked up in the template [proto] assigned to "__proto__"
    (whose own properties are [element], which is [null], and [props],
    each a value with no [callback]), then in [Object.prototype]; or, with
    no such template, in [Object.prototype] alone.  [None] stands for
    [undefined] or [null], [Some c] for an object whose [callback] is [c]. *)
Definition inherited_template {C} (props : list string) (proto : option C) (key : string)
    : option (option C) :=
  match proto with
  | Some pcb =>
      if String.eqb key "__proto__" then Some (Some pcb)   (* the template itself *)
      else if String.eqb key "element" then None             (* null *)
      else if existsb (String.eqb key) props || object_member key then Some None
      else None
  | None => if object_member key then Some None else None
  end.

Definition template_lookup {C} (own : gmap string C) (props : list string) (proto : option C)
    (key : string) : option (option C) :=
  match own !! key with
  | Some cb => Some (Some cb)
  | None => inherited_template props proto key
  end.

(** The properties of a State other than [element]: its own, then
    [State.prototype.constructor]. *)
Definition state_props : list string :=
  ["callback"; "modifiers"; "publish"; "isActive"; "setElement"; "addModifier"; "constructor"].

Definition modifier_props : list string :=
  ["callback"; "states"; "execute"; "setElement"; "subscribe"; "constructor"].

Definition state_lookup (s : St) (key : string) : option (option StateCallback) :=
  template_lookup (state_templates s) state_props (state_proto s) key.

Definition modifier_lookup (s : St) (key : string) : option (option ModifierCallback) :=
  template_lookup (modifier_templates s) modifier_props (modifier_proto s) key.

Definition statesContainer_add (key : string) (cb : StateCallback) : M unit :=
  modify (fun s => if String.eqb key "__proto__" then set_state_proto (Some cb) s
                   else set_state_templates (<[key := cb]> (state_templates s)) s).

Definition statesContainer_get (key : string) : M nat :=
  fun s => match state_lookup s key with
           | None => (Exc TypeError, s)            (* undefined.callback / null.callback *)
           | Some cb => alloc_state (mkState None cb []) s
           end.

Definition modifiersContainer_add (key : string) (cb : ModifierCallback) : M unit :=
  modify (fun s => if String.eqb key "__proto__" then set_modifier_proto (Some cb) s
                   else set_modifier_templates (<[key := cb]> (modifier_templates s)) s).

Definition modifiersContainer_get (key : string) : M nat :=
  fun s => match modifier_lookup s key with
           | None => (Exc TypeError, s)
           | Some cb => alloc_modifier (mkModifier None cb []) s
           end.

(** ** State (lines 170-212) *)

(** [this.callback(this.element.$element)]: [null.$element] and calling
    [undefined] both throw. *)
Definition State_isActive (x : nat) : M bool :=
  st <- deref_state x ;;
  match st_element st with
  | None => throw TypeError
  | Some e =>
      el <- deref_el e ;;
      match st_callback st with
      | None => throw TypeError
      | Some cb => w <- gets dom ;; ret (cb (el_host el) w)
      end
  end.

Definition State_setElement (x : nat) (e : nat) : M nat :=
  st <- deref_state x ;;
  write_state x (mkState (Some e) (st_callback st) (st_modifiers st)) ;;
  ret x.

Definition State_addModifier (x : nat) (m : nat) : M unit :=
  st <- deref_state x ;;
  write_state x (mkState (st_element st) (st_callback st) (st_modifiers st ++ [m])).

(** [publish] and [execute] call back into an Element's [modifyDependents];
    they are written against that callee, [md]. *)
Definition Modifier_execute_with (md : nat -> M unit) (m : nat) : M unit :=
  mo <- deref_modifier m ;;
  match md_element mo with
  | None => throw TypeError
  | Some e =>
      el <- deref_el e ;;
      match md_callback mo with
      | None => throw TypeError
      | Some cb =>
          (* this.callback(this.element.$element) *)
          modify (fun s => set_dom (cb (el_host el) (dom s)) s) ;;
          log (EvMutate m) ;;
          (* this.element.modifyDependents() *)
          md e
      end
  end.

(** [for (var i in this.modifiers)] over an array: its indices, in order. *)
Definition State_publish_with (md : nat -> M unit) (x : nat) : M unit :=
  st <- deref_state x ;;
  log (EvPublish x) ;;
  for_each (st_modifiers st) (Modifier_execute_with md).

(** ** Modifier (lines 220-258) *)

Definition Modifier_setElement (m : nat) (e : nat) : M nat :=
  mo <- deref_modifier m ;;
  write_modifier m (mkModifier (Some e) (md_callback mo) (md_states mo)) ;;
  ret m.

Definition Modifier_subscribe (m : nat) (x : nat) : M unit :=
  State_addModifier x m ;;
  mo <- deref_modifier m ;;
  write_modifier m (mkModifier (md_element mo) (md_callback mo) (md_states mo ++ [x])).

(** ** Element (lines 108-162) *)

(** The loop of [getActiveStates] over the States [l] in [for .. in] order,
    building [activeStates]; [states[i].hasOwnProperty('isActive')] holds
    for every State instance ([isActive] is assigned in the constructor). *)
Fixpoint filter_active (l : list (string * nat)) (activeStates : list (string * nat))
    : M (list (string * nat)) :=
  match l with
  | [] => ret activeStates
  | (i, x) :: l' =>
      b <- State_isActive x ;;
      filter_active l' (if b then js_set i x activeStates else activeStates)
  end.

Definition Element_getActiveStates (e : nat) : M (list (string * nat)) :=
  el <- deref_el e ;;
  filter_active (forin_order (el_states el)) [].

(** The fan-out.  [activeStates[i].hasOwnProperty('publish')] holds for
    every State instance ([publish] is assigned in the constructor), so each
    active State is published.  [fuel] bounds the cascade depth. *)
Fixpoint modifyDependents (fuel : nat) (e : nat) : M unit :=
  match fuel with
  | O => throw OutOfFuel
  | S f =>
      activeStates <- Element_getActiveStates e ;;
      for_each (forin_order activeStates) (fun p => State_publish_with (modifyDependents f) (snd p))
  end.

Definition State_publish (fuel : nat) (x : nat) : M unit :=
  State_publish_with (modifyDependents fuel) x.

Definition Modifier_execute (fuel : nat) (m : nat) : M unit :=
  Modifier_execute_with (modifyDependents fuel) m.

(** [this.states[key] = state.setElement(this)]: only called with a [key]
    whose lookup gave [undefined], so not an [Object.prototype] name (in
    particular not "__proto__"): the assignment writes an own property. *)
Definition Element_attachState (e : nat) (key : string) (x : nat) : M unit :=
  x' <- State_setElement x e ;;
  el <- deref_el e ;;
  write_el e (mkElement (el_host el) (js_set key x' (el_states el)) (el_modifiers el)).

Definition Element_getState (e : nat) (key : string) : M js_val :=
  el <- deref_el e ;; ret (js_lookup key (el_states el)).

Definition Element_attachModifier (e : nat) (key : string) (m : nat) : M unit :=
  m' <- Modifier_setElement m e ;;
  el <- deref_el e ;;
  write_el e (mkElement (el_host el) (el_states el) (js_set key m' (el_modifiers el))).

Definition Element_getModifier (e : nat) (key : string) : M js_val :=
  el <- deref_el e ;; ret (js_lookup key (el_modifiers el)).

(** [new Element($element)]: empty maps, and [$element.change(modifyDependents)]. *)
Definition new_Element (h : Host) : M nat :=
  e <- alloc_el (mkElement h [] []) ;;
  modify (fun s => set_handlers (handlers s ++ [(h, e)]) s) ;;
  ret e.

(** ** elementsContainer (lines 69-102) *)

(** [this.elements.hasOwnProperty(key)]: an own property "hasOwnProperty"
    (an Element) shadows the method and calling it throws. *)
Definition elementsContainer_get (h : Host) : M (option nat) :=
  fun s => let key := getElementKey s h in
           match elements s !! "hasOwnProperty" with
           | Some _ => (Exc TypeError, s)
           | None => (Ok (elements s !! key), s)
           end.

Definition resolve (h : Host) : M nat :=
  found <- elementsContainer_get h ;;
  match found with
  | Some e => ret e
  | None =>
      key <- gets (fun s => getElementKey s h) ;;
      e <- new_Element h ;;
      modify (fun s => set_elements (assign_property key e (elements s)) s) ;;
      ret e
  end.

(** ** createRelationship (lines 271-299) *)

(** Lines 278-280: attach the named State to [d] unless [getState] gives a
    truthy value (an instance, or an inherited built-in). *)
Definition ensure_state (d : nat) (dependencyStateName : string) : M unit :=
  present <- Element_getState d dependencyStateName ;;
  match present with
  | JUndefined => x <- statesContainer_get dependencyStateName ;;
                  Element_attachState d dependencyStateName x
  | _ => ret tt
  end.

(** Lines 283-285: the same for the named Modifier on [t]. *)
Definition ensure_modifier (t : nat) (dependentModifierName : string) : M unit :=
  present <- Element_getModifier t dependentModifierName ;;
  match present with
  | JUndefined => m <- modifiersContainer_get dependentModifierName ;;
                  Element_attachModifier t dependentModifierName m
  | _ => ret tt
  end.

(** Lines 276-289: lazy attach on both Elements, then the subscription.
    Returns [dependencyElement] and [subModifier], which the inheritance
    step reads. *)
Definition createRelationship_wire (dh : Host) (dependencyStateName : string)
    (th : Host) (dependentModifierName : string) : M (nat * nat) :=
  d <- resolve dh ;;
  ensure_state d dependencyStateName ;;
  t <- resolve th ;;
  ensure_modifier t dependentModifierName ;;
  pubState <- Element_getState d dependencyStateName ;;
  subModifier <- Element_getModifier t dependentModifierName ;;
  match subModifier with
  | JInstance m =>
      match pubState with
      | JInstance x => Modifier_subscribe m x ;; ret (d, m)
      | _ => throw TypeError                (* state.addModifier is not a function *)
      end
  | _ => throw TypeError                    (* subModifier.subscribe is not a function *)
  end.

(** Lines 292-297, the body of [if (inheritState)]. *)
Definition createRelationship_inherit (d : nat) (subModifier : nat)
    (dependentModifierName : string) : M unit :=
  up <- Element_getModifier d dependentModifierName ;;
  match up with
  | JInstance m' =>
      (* for (var key in cascadingStates) over an array: its indices in
         order, fixed when the loop starts *)
      mo' <- deref_modifier m' ;;
      for_each (md_states mo') (Modifier_subscribe subModifier)
  | JInherited => ret tt        (* a built-in's [states] is undefined: no iteration *)
  | JUndefined => ret tt
  end.

Definition createRelationship (dh : Host) (dependencyStateName : string)
    (th : Host) (dependentModifierName : string) (inheritState : bool) : M unit :=
  p <- createRelationship_wire dh dependencyStateName th dependentModifierName ;;
  if inheritState then createRelationship_inherit (fst p) (snd p) dependentModifierName
  else ret tt.

(** ** Change events and the public API (lines 301-313) *)

(** jQuery runs the change handlers registered on the host, in order. *)
Definition trigger_change (fuel : nat) (h : Host) : M unit :=
  hs <- gets handlers ;;
  for_each (filter (fun p => Nat.eqb (fst p) h) hs) (fun p => modifyDependents fuel (snd p)).

Definition addState (name : string) (cb : StateCallback) : M unit :=
  statesContainer_add name cb.

Definition addModifier (name : string) (cb : ModifierCallback) : M unit :=
  modifiersContainer_add name cb.

Definition setElementKeyCallback (cb : Host -> string) : M unit :=
  modify (set_getElementKey cb).

(** What the page can do: the four API calls, a change event on a host
    (with the depth bound of its cascade), or a user edit of the page. *)
Inductive op :=
| OpAddState (name : string) (cb : StateCallback)
| OpAddModifier (name : string) (cb : ModifierCallback)
| OpCreateRelationship (dh : Host) (sn : string) (th : Host) (mn : string) (inherit : bool)
| OpSetElementKeyCallback (cb : Host -> string)
| OpChange (fuel : nat) (h : Host)
| OpUserEdit (f : W -> W).

Definition run_op (o : op) : M unit :=
  match o with
  | OpAddState n cb => addState n cb
  | OpAddModifier n cb => addModifier n cb
  | OpCreateRelationship dh sn th mn i => createRelationship dh sn th mn i
  | OpSetElementKeyCallback cb => setElementKeyCallback cb
  | OpChange fuel h => trigger_change fuel h
  | OpUserEdit f => modify (fun s => set_dom (f (dom s)) s)
  end.

(** A thrown call does not stop the page: later operations run on the
    state the throw left behind. *)
Fixpoint run_ops (os : list op) (s : St) : St :=
  match os with
  | [] => s
  | o :: os' => run_ops os' (snd (run_op o s))
  end.

Definition reachable (s : St) : Prop :=
  exists os w, s = run_ops os (init w).

(** ** Queries used to state properties *)

(** The Element stored under [h]'s key. *)
Definition element_of (s : St) (h : Host) : option nat :=
  elements s !! getElementKey s h.

(** The instance an Element's map holds under [k] as an own property. *)
Definition state_at (s : St) (e : nat) (k : string) : option nat :=
  el ← el_heap s !! e; js_get k (el_states el).

Definition modifier_at (s : St) (e : nat) (k : string) : option nat :=
  el ← el_heap s !! e; js_get k (el_modifiers el).

Definition mod_states (s : St) (m : nat) : list nat :=
  match md_heap s !! m with Some mo => md_states mo | None => [] end.

Definition state_subs (s : St) (x : nat) : list nat :=
  match st_heap s !! x with Some st => st_modifiers st | None => [] end.



(** State [x] exists and has a callback. *)
Definition has_callback (s : St) (x : nat) : bool :=
  match st_heap s !! x with
  | Some st => match st_callback st with Some _ => true | None => false end
  | None => false
  end.

(** Every State attached to [el] has a callback. *)
Definition callbacks_set (s : St) (el : Element) : bool :=
  forallb (fun p => has_callback s (snd p)) (el_states el).

(** [isActive] of State [x] attached to [el], on the current page. *)
Definition is_active (s : St) (el : Element) (x : nat) : bool :=
  match st_heap s !! x with
  | Some st => match st_callback st with Some cb => cb (el_host el) (dom s) | None => false end
  | None => false
  end.

(** The [activeStates] of [el] in the order the fan-out visits them. *)
Definition active_states (s : St) (el : Element) : list (string * nat) :=
  List.filter (fun p => is_active s el (snd p)) (forin_order (el_states el)).

(** ** Well-formedness of the object graph *)

Definition wf (s : St) : Prop :=
  (forall k e, elements s !! k = Some e -> e < length (el_heap s)) /\
  (forall e el, el_heap s !! e = Some el ->
     forall k x, In (k, x) (el_states el) ->
       exists st, st_heap s !! x = Some st /\ st_element st = Some e /\
                  is_Some (state_lookup s k)) /\
  (forall e el, el_heap s !! e = Some el ->
     forall k m, In (k, m) (el_modifiers el) ->
       exists mo, md_heap s !! m = Some mo /\ md_element mo = Some e /\
                  is_Some (modifier_lookup s k)) /\
  (forall m mo, md_heap s !! m = Some mo ->
     forall x, In x (md_states mo) -> x < length (st_heap s)) /\
  (forall e el, el_heap s !! e = Some el -> NoDup (map fst (el_states el))).

(** With no template assigned to "__proto__", every instance of that kind
    has a callback. *)
Definition callbacks_ok (s : St) : Prop :=
  (state_proto s = None -> forall x st, st_heap s !! x = Some st -> is_Some (st_callback st)) /\
  (modifier_proto s = None -> forall m mo, md_heap s !! m = Some mo -> is_Some (md_callback mo)).


Definition templates (s : St) :=
  (state_templates s, state_proto s, modifier_templates s, modifier_proto s).

(** Every State and every Modifier has a callback. *)
Definition all_callbacks (s : St) : Prop :=
  (forall x st, st_heap s !! x = Some st -> is_Some (st_callback st)) /\
  (forall m mo, md_heap s !! m = Some mo -> is_Some (md_callback mo)).

(** * Proofs *)

Lemma bind_ok {A B} (m : M A) (k : A -> M B) s a s' :
  m s = (Ok a, s') -> bind m k s = k a s'.
Proof. unfold bind. intros ->. reflexivity. Qed.

Lemma bind_exc {A B} (m : M A) (k : A -> M B) s e s' :
  m s = (Exc e, s') -> bind m k s = (Exc e, s').
Proof. unfold bind. intros ->. reflexivity. Qed.


(** ** Objects with own properties *)

Lemma js_get_In k l v : js_get k l = Some v -> In (k, v) l.
Proof.
  induction l as [|[k' v'] l IH]; simpl; [discriminate|].
  destruct (String.eqb_spec k k') as [->|_]; [intros [= ->]; left; done|].
  intros H; right; auto.
Qed.

Lemma In_js_set k v l k' v' :
  In (k', v') (js_set k v l) -> (k', v') = (k, v) \/ In (k', v') l.
Proof.
  induction l as [|[k0 v0] l IH]; simpl.
  - intros [H|[]]; left; congruence.
  - destruct (String.eqb_spec k k0) as [->|_]; simpl.
    + intros [H|H]; [left; congruence | right; right; done].
    + intros [H|H]; [right; left; done |].
      destruct (IH H); [left | right; right]; done.
Qed.

Lemma js_get_set_eq k v l : js_get k (js_set k v l) = Some v.
Proof.
  induction l as [|[k0 v0] l IH]; simpl; [by rewrite String.eqb_refl|].
  destruct (String.eqb_spec k k0) as [->|Hne]; simpl.
  - by rewrite String.eqb_refl.
  - apply String.eqb_neq in Hne. by rewrite Hne.
Qed.

Lemma js_get_set k k' v l :
  js_get k (js_set k' v l) = if String.eqb k k' then Some v else js_get k l.
Proof.
  induction l as [|[k0 v0] l IH]; simpl.
  - by destruct (String.eqb k k').
  - destruct (String.eqb_spec k' k0) as [->|Hne]; simpl.
    + by destruct (String.eqb k k0).
    + rewrite IH. destruct (String.eqb_spec k k0) as [->|]; [|done].
      apply String.eqb_neq in Hne. rewrite String.eqb_sym in Hne. by rewrite Hne.
Qed.

Lemma js_get_None k l : js_get k l = None <-> ~ In k (map fst l).
Proof.
  induction l as [|[k' v'] l IH]; simpl; [tauto|].
  destruct (String.eqb_spec k k') as [->|Hne]; [split; [discriminate|tauto]|].
  rewrite IH. split; [intros H [->|Hin]; tauto | tauto].
Qed.

Lemma js_lookup_instance k l v : js_lookup k l = JInstance v -> js_get k l = Some v.
Proof. unfold js_lookup. destruct (js_get k l); [congruence|]. by destruct (object_member k). Qed.

(** A new name is appended: objects keep their properties in creation order. *)
Lemma js_set_fresh k v l : js_get k l = None -> js_set k v l = l ++ [(k, v)].
Proof.
  induction l as [|[k' v'] l IH]; simpl; [done|].
  destruct (String.eqb k k'); [discriminate|]. intros H. by rewrite IH.
Qed.

Lemma map_fst_js_set k v l :
  map fst (js_set k v l) = match js_get k l with Some _ => map fst l | None => map fst l ++ [k] end.
Proof.
  induction l as [|[k' v'] l IH]; simpl; [done|].
  destruct (String.eqb_spec k k') as [->|_]; simpl; [done|].
  rewrite IH. by destruct (js_get k l).
Qed.

Lemma NoDup_js_set k v l : NoDup (map fst l) -> NoDup (map fst (js_set k v l)).
Proof.
  intros Hl. rewrite map_fst_js_set. destruct (js_get k l) eqn:E; [done|].
  apply js_get_None in E. apply NoDup_app. split; [done|]. split; [|apply NoDup_singleton].
  intros y Hy ->%list_elem_of_singleton. apply E. by apply list_elem_of_In.
Qed.

(** ** The order of [for .. in] *)

Lemma filter_split {A} (P : A -> bool) (l : list A) :
  List.filter P l ++ List.filter (fun x => negb (P x)) l ≡ₚ l.
Proof.
  induction l as [|a l IH]; simpl; [done|].
  destruct (P a); simpl.
  - by constructor.
  - rewrite <- Permutation_middle. by constructor.
Qed.

Lemma index_insert_perm {A} (p : string * A) l : index_insert p l ≡ₚ p :: l.
Proof.
  induction l as [|q l IH]; simpl; [done|].
  destruct (idx p <=? idx q)%N; [done|].
  rewrite IH. apply perm_swap.
Qed.

Lemma index_sort_perm {A} (l : list (string * A)) : index_sort l ≡ₚ l.
Proof.
  induction l as [|p l IH]; simpl; [done|].
  rewrite index_insert_perm. by constructor.
Qed.

Lemma forin_order_perm {A} (l : list (string * A)) : forin_order l ≡ₚ l.
Proof. unfold forin_order. rewrite index_sort_perm. apply filter_split. Qed.

Lemma In_forin_order {A} (l : list (string * A)) p : In p (forin_order l) <-> In p l.
Proof. split; apply Permutation_in; [|symmetry]; apply forin_order_perm. Qed.

(** Sorted by index value. *)
Fixpoint idx_sorted {A} (l : list (string * A)) : Prop :=
  match l with
  | [] => True
  | p :: l' => Forall (fun q => (idx p <= idx q)%N) l' /\ idx_sorted l'
  end.

Lemma index_insert_sorted {A} (p : string * A) l : idx_sorted l -> idx_sorted (index_insert p l).
Proof.
  induction l as [|q l IH]; simpl; [done|]. intros [Hq Hl].
  destruct (N.leb_spec (idx p) (idx q)) as [Hpq|Hpq]; simpl.
  - split; [|done]. constructor; [done|]. eapply Forall_impl; [exact Hq|]. simpl. lia.
  - split; [|by apply IH]. apply List.Forall_forall. intros r Hr.
    apply (Permutation_in _ (index_insert_perm p l)) in Hr as [<-|Hr]; [lia|].
    by apply (proj1 (List.Forall_forall _ _) Hq).
Qed.

Lemma index_sort_sorted {A} (l : list (string * A)) : idx_sorted (index_sort l).
Proof. induction l as [|p l IH]; simpl; [done|]. by apply index_insert_sorted. Qed.

Lemma index_sort_id {A} (l : list (string * A)) : idx_sorted l -> index_sort l = l.
Proof.
  induction l as [|p l IH]; simpl; [done|]. intros [Hp Hl]. rewrite (IH Hl).
  destruct l as [|q l]; simpl; [done|].
  apply Forall_cons in Hp as [Hpq _]. by destruct (N.leb_spec (idx p) (idx q)); [|lia].
Qed.

Lemma filter_sorted {A} (P : string * A -> bool) l : idx_sorted l -> idx_sorted (List.filter P l).
Proof.
  induction l as [|p l IH]; simpl; [done|]. intros [Hp Hl].
  destruct (P p); simpl; [|auto]. split; [|auto].
  apply List.Forall_forall. intros q [Hq _]%List.filter_In. by apply (proj1 (List.Forall_forall _ _) Hp).
Qed.

Lemma filter_all {A} (P : A -> bool) l : (forall x, In x l -> P x = true) -> List.filter P l = l.
Proof.
  induction l as [|a l IH]; simpl; [done|]. intros H.
  rewrite (H a (or_introl eq_refl)), IH; [done|]. auto.
Qed.

Lemma filter_none {A} (P : A -> bool) l : (forall x, In x l -> P x = false) -> List.filter P l = [].
Proof.
  induction l as [|a l IH]; simpl; [done|]. intros H.
  rewrite (H a (or_introl eq_refl)), IH; [done|]. auto.
Qed.

(** Visiting a filtered view of a visiting order keeps that order. *)
Lemma forin_order_filter {A} (P : string * A -> bool) l :
  forin_order (List.filter P (forin_order l)) = List.filter P (forin_order l).
Proof.
  unfold forin_order at 2 3. rewrite List.filter_app.
  set (I := index_sort (List.filter is_index l)).
  set (N := List.filter (fun p => negb (is_index p)) l).
  assert (HI : forall p, In p I -> is_index p = true).
  { intros p Hp. apply (Permutation_in _ (index_sort_perm _)) in Hp.
    by apply List.filter_In in Hp as [_ ?]. }
  assert (HN : forall p, In p N -> is_index p = false).
  { intros p Hp. apply List.filter_In in Hp as [_ Hp]. by destruct (is_index p). }
  unfold forin_order. rewrite !List.filter_app.
  rewrite (filter_all is_index (List.filter P I)), (filter_none is_index (List.filter P N)).
  2:{ intros p [Hp _]%List.filter_In. auto. }
  2:{ intros p [Hp _]%List.filter_In. auto. }
  rewrite (filter_none _ (List.filter P I)), (filter_all _ (List.filter P N)).
  2:{ intros p [Hp _]%List.filter_In. by rewrite HN. }
  2:{ intros p [Hp _]%List.filter_In. by rewrite HI. }
  rewrite app_nil_r, index_sort_id; [done|].
  apply filter_sorted, index_sort_sorted.
Qed.

(** ** Operations that keep a view of the state in a preorder *)

Section Preservation.

Variable X : Type.
Variable view : St -> X.
Variable R : X -> X -> Prop.
Hypothesis R_refl : forall x, R x x.
Hypothesis R_trans : forall x y z, R x y -> R y z -> R x z.

Definition preserves {A} (m : M A) : Prop :=
  forall s, R (view s) (view (snd (m s))).

Lemma preserves_bind {A B} (m : M A) (k : A -> M B) :
  preserves m -> (forall a, preserves (k a)) -> preserves (bind m k).
Proof.
  intros Hm Hk s. unfold bind. specialize (Hm s).
  destruct (m s) as [[a|e] s']; simpl in *; [|done].
  eapply R_trans; [exact Hm | apply Hk].
Qed.

Lemma preserves_ret {A} (a : A) : preserves (ret a).
Proof. intros s. apply R_refl. Qed.

Lemma preserves_throw {A} e : preserves (@throw A e).
Proof. intros s. apply R_refl. Qed.

Lemma preserves_gets {A} (f : St -> A) : preserves (gets f).
Proof. intros s. apply R_refl. Qed.

Lemma preserves_modify f : (forall s, R (view s) (view (f s))) -> preserves (modify f).
Proof. intros H s. apply H. Qed.

Lemma preserves_for_each {A} (l : list A) (f : A -> M unit) :
  (forall a, preserves (f a)) -> preserves (for_each l f).
Proof.
  intros Hf. induction l as [|a l IH]; simpl.
  - apply preserves_ret.
  - apply preserves_bind; [apply Hf | intros _; apply IH].
Qed.

Lemma preserves_deref_el e : preserves (deref_el e).
Proof. intros s. unfold deref_el. destruct (el_heap s !! e); apply R_refl. Qed.
Lemma preserves_deref_state x : preserves (deref_state x).
Proof. intros s. unfold deref_state. destruct (st_heap s !! x); apply R_refl. Qed.
Lemma preserves_deref_modifier m : preserves (deref_modifier m).
Proof. intros s. unfold deref_modifier. destruct (md_heap s !! m); apply R_refl. Qed.

End Preservation.

Arguments preserves {X} view R {A} m.

Create HintDb pres.
Hint Resolve preserves_ret preserves_throw preserves_gets
  preserves_deref_el preserves_deref_state preserves_deref_modifier : pres.

Ltac pres_solve :=
  repeat match goal with
  | |- preserves _ _ (bind _ _) => apply preserves_bind; [assumption| |intros ?]
  | |- preserves _ _ (for_each _ _) => apply preserves_for_each; [assumption|assumption|intros ?]
  | |- preserves _ _ (match ?t with _ => _ end) => destruct t
  | |- preserves _ _ _ => solve [eauto with pres]
  end.

(** The cascade only writes the page and the trace. *)
Section FrameCascade.

Variable X : Type.
Variable view : St -> X.
Variable R : X -> X -> Prop.
Hypothesis R_refl : forall x, R x x.
Hypothesis R_trans : forall x y z, R x y -> R y z -> R x z.
Hypothesis H_log : forall ev, preserves view R (log ev).
Hypothesis H_dom : forall f : St -> W, preserves view R (modify (fun s => set_dom (f s) s)).

Hint Resolve preserves_bind preserves_for_each H_log H_dom : pres.

Lemma preserves_isActive x : preserves view R (State_isActive x).
Proof. unfold State_isActive. pres_solve. Qed.
Hint Resolve preserves_isActive : pres.

Lemma preserves_filter_active l acc : preserves view R (filter_active l acc).
Proof. revert acc; induction l as [|[i x] l IH]; intros acc; simpl; pres_solve. Qed.
Hint Resolve preserves_filter_active : pres.

Lemma preserves_getActiveStates e : preserves view R (Element_getActiveStates e).
Proof. unfold Element_getActiveStates. pres_solve. Qed.
Hint Resolve preserves_getActiveStates : pres.

Lemma preserves_execute_with md m :
  (forall e, preserves view R (md e)) -> preserves view R (Modifier_execute_with md m).
Proof. intros Hmd. unfold Modifier_execute_with. pres_solve. Qed.
Hint Resolve preserves_execute_with : pres.

Lemma preserves_publish_with md x :
  (forall e, preserves view R (md e)) -> preserves view R (State_publish_with md x).
Proof.
  intros Hmd. unfold State_publish_with. pres_solve.
Qed.
Hint Resolve preserves_publish_with : pres.

Lemma preserves_modifyDependents fuel e : preserves view R (modifyDependents fuel e).
Proof.
  revert e; induction fuel as [|f IH]; intros e; simpl; pres_solve.
Qed.
Hint Resolve preserves_modifyDependents : pres.

Lemma preserves_trigger_change fuel h : preserves view R (trigger_change fuel h).
Proof. unfold trigger_change. pres_solve. Qed.

(** Relationship setup, given its leaves. *)
Hypothesis H_resolve : forall h, preserves view R (resolve h).
Hypothesis H_sget : forall k, preserves view R (statesContainer_get k).
Hypothesis H_mget : forall k, preserves view R (modifiersContainer_get k).
Hypothesis H_write_el : forall e el, preserves view R (write_el e el).
Hypothesis H_write_state : forall x st, preserves view R (write_state x st).
Hypothesis H_write_modifier : forall m mo, preserves view R (write_modifier m mo).
Hint Resolve H_resolve H_sget H_mget H_write_el H_write_state H_write_modifier : pres.

Lemma preserves_subscribe m x : preserves view R (Modifier_subscribe m x).
Proof. unfold Modifier_subscribe, State_addModifier. pres_solve. Qed.
Hint Resolve preserves_subscribe : pres.

Lemma preserves_wire dh sn th mn : preserves view R (createRelationship_wire dh sn th mn).
Proof.
  unfold createRelationship_wire, ensure_state, ensure_modifier,
    Element_getState, Element_getModifier, Element_attachState, Element_attachModifier, State_setElement, Modifier_setElement.
  pres_solve.
Qed.

Lemma preserves_inherit d m mn : preserves view R (createRelationship_inherit d m mn).
Proof. unfold createRelationship_inherit, Element_getModifier. pres_solve. Qed.

Lemma preserves_createRelationship dh sn th mn b :
  preserves view R (createRelationship dh sn th mn b).
Proof.
  unfold createRelationship. apply preserves_bind; [done|apply preserves_wire|].
  intros [d m]; destruct b; [apply preserves_inherit | by apply preserves_ret].
Qed.

End FrameCascade.

(** ** The Element Registry *)

Lemma resolve_poisoned h s :
  is_Some (elements s !! "hasOwnProperty") -> resolve h s = (Exc TypeError, s).
Proof.
  intros [e He]. unfold resolve, bind, elementsContainer_get. by rewrite He.
Qed.

Lemma resolve_found h s e :
  elements s !! "hasOwnProperty" = None -> element_of s h = Some e -> resolve h s = (Ok e, s).
Proof.
  unfold element_of, resolve, bind, elementsContainer_get, gets. intros H0 H. by rewrite H0, H.
Qed.

Lemma resolve_new h s :
  elements s !! "hasOwnProperty" = None -> element_of s h = None ->
  resolve h s =
    (Ok (length (el_heap s)),
     mkSt (state_templates s) (state_proto s) (modifier_templates s) (modifier_proto s)
          (getElementKey s)
          (assign_property (getElementKey s h) (length (el_heap s)) (elements s))
          (el_heap s ++ [mkElement h [] []]) (st_heap s) (md_heap s)
          (handlers s ++ [(h, length (el_heap s))]) (dom s) (trace s)).
Proof.
  unfold element_of, resolve, bind, elementsContainer_get, gets. intros H0 H. by rewrite H0, H.
Qed.

(** The three ways [resolve] can go. *)
Ltac resolve_cases s h :=
  let P := fresh "P" in let E := fresh "E" in
  destruct (elements s !! "hasOwnProperty") eqn:P;
  [ rewrite (resolve_poisoned h s ltac:(rewrite P; eauto))
  | destruct (element_of s h) eqn:E;
    [ rewrite (resolve_found h s _ P E) | rewrite (resolve_new h s P E) ] ].

Lemma lookup_assign_property k v m k' :
  assign_property k v m !! k' = if String.eqb k "__proto__" then m !! k'
                                else if String.eqb k' k then Some v else m !! k'.
Proof.
  unfold assign_property. destruct (String.eqb k "__proto__"); [done|].
  destruct (String.eqb_spec k' k) as [->|Hne].
  - by rewrite lookup_insert_eq.
  - by rewrite lookup_insert_ne by congruence.
Qed.

Lemma lookup_assign_property_Some k v m k' e :
  assign_property k v m !! k' = Some e -> m !! k' = Some e \/ (k' = k /\ e = v).
Proof.
  rewrite lookup_assign_property. destruct (String.eqb k "__proto__"); [by left|].
  destruct (String.eqb_spec k' k) as [->|]; [intros [= <-]; by right | by left].
Qed.

Definition map_ext (m1 m2 : gmap string nat) : Prop :=
  forall k e, m1 !! k = Some e -> m2 !! k = Some e.

Lemma map_ext_refl m : map_ext m m.
Proof. intros k e H. exact H. Qed.

Lemma map_ext_trans m1 m2 m3 : map_ext m1 m2 -> map_ext m2 m3 -> map_ext m1 m3.
Proof. intros H1 H2 k e H. auto. Qed.

Lemma resolve_map_ext h : preserves elements map_ext (resolve h).
Proof.
  intros s. resolve_cases s h; try apply map_ext_refl. simpl. intros k e Hk.
  rewrite lookup_assign_property. destruct (String.eqb _ "__proto__"); [done|].
  destruct (String.eqb_spec k (getElementKey s h)) as [->|]; [|done].
  unfold element_of in E. congruence.
Qed.

Lemma run_op_map_ext o : preserves elements map_ext (run_op o).
Proof.
  assert (Hr := map_ext_refl). assert (Ht := map_ext_trans).
  destruct o; simpl.
  - intros s. unfold addState, statesContainer_add, modify; simpl.
    by case_match; apply map_ext_refl.
  - intros s. unfold addModifier, modifiersContainer_add, modify; simpl.
    by case_match; apply map_ext_refl.
  - apply preserves_createRelationship; try exact Hr; try exact Ht;
      try apply resolve_map_ext;
      intros; unfold statesContainer_get, modifiersContainer_get; intros s';
      repeat case_match; apply map_ext_refl.
  - intros s. apply map_ext_refl.
  - apply preserves_trigger_change; try exact Hr; try exact Ht;
      intros; intros s'; apply map_ext_refl.
  - intros s. apply map_ext_refl.
Qed.

Lemma run_ops_map_ext os s : map_ext (elements s) (elements (run_ops os s)).
Proof.
  revert s; induction os as [|o os IH]; intros s; simpl; [apply map_ext_refl|].
  eapply map_ext_trans; [apply run_op_map_ext | apply IH].
Qed.

Lemma resolve_registers h s e s' :
  resolve h s = (Ok e, s') ->
  getElementKey s' = getElementKey s /\ elements s !! "hasOwnProperty" = None /\
  (getElementKey s h <> "__proto__" -> element_of s' h = Some e) /\
  (forall k, k <> getElementKey s h -> elements s' !! k = elements s !! k).
Proof.
  resolve_cases s h; [discriminate| |]; intros [= <- <-]; (split; [done|]); (split; [done|]).
  - split; [done|]. done.
  - unfold element_of; simpl. split.
    + intros Hp. rewrite lookup_assign_property, String.eqb_refl.
      by destruct (String.eqb_spec (getElementKey s h) "__proto__").
    + intros k Hk. rewrite lookup_assign_property.
      destruct (String.eqb _ "__proto__"); [done|].
      by destruct (String.eqb_spec k (getElementKey s h)).
Qed.

Lemma run_op_key o :
  (forall g, o <> OpSetElementKeyCallback g) -> preserves getElementKey eq (run_op o).
Proof.
  intros Ho. assert (Ht : forall x y z : Host -> string, x = y -> y = z -> x = z) by congruence.
  destruct o; simpl.
  - intros s. unfold addState, statesContainer_add, modify; simpl. by case_match.
  - intros s. unfold addModifier, modifiersContainer_add, modify; simpl. by case_match.
  - apply preserves_createRelationship; try done;
      intros; unfold statesContainer_get, modifiersContainer_get; intros s';
      try (resolve_cases s' h);
      repeat case_match; done.
  - exfalso. by apply (Ho cb).
  - apply preserves_trigger_change; try done; intros; intros s'; done.
  - intros s. done.
Qed.

Lemma run_ops_key os s :
  Forall (fun o => forall g, o <> OpSetElementKeyCallback g) os ->
  getElementKey (run_ops os s) = getElementKey s.
Proof.
  revert s; induction os as [|o os IH]; intros s Hos; simpl; [done|].
  inversion Hos as [|? ? Ho Hos']; subst.
  rewrite IH by done. symmetry. apply (run_op_key o Ho).
Qed.

(** ** Well-formedness is kept by each step *)

Ltac conj_split := repeat match goal with |- _ /\ _ => split | |- _ = _ => reflexivity end.

Lemma wf_init w : wf (init w).
Proof.
  unfold wf, init; simpl. conj_split.
  - intros k e H. by rewrite lookup_empty in H.
  - intros e el H. by rewrite lookup_nil in H.
  - intros e el H. by rewrite lookup_nil in H.
  - intros m mo H. by rewrite lookup_nil in H.
  - intros e el H. by rewrite lookup_nil in H.
Qed.

Lemma state_at_valid s e k x :
  wf s -> state_at s e k = Some x ->
  exists st, st_heap s !! x = Some st /\ st_element st = Some e.
Proof.
  intros (_ & W2 & _) H. unfold state_at in H.
  destruct (el_heap s !! e) as [el|] eqn:E; simpl in H; [|discriminate].
  destruct (W2 e el E k x (js_get_In _ _ _ H)) as (st & ? & ? & _). eauto.
Qed.

Lemma modifier_at_valid s e k m :
  wf s -> modifier_at s e k = Some m ->
  exists mo, md_heap s !! m = Some mo /\ md_element mo = Some e.
Proof.
  intros (_ & _ & W3 & _) H. unfold modifier_at in H.
  destruct (el_heap s !! e) as [el|] eqn:E; simpl in H; [|discriminate].
  destruct (W3 e el E k m (js_get_In _ _ _ H)) as (mo & ? & ? & _). eauto.
Qed.

Lemma wf_resolve h s e s' : wf s -> resolve h s = (Ok e, s') ->
  wf s' /\ e < length (el_heap s') /\ length (el_heap s) <= length (el_heap s') /\
  st_heap s' = st_heap s /\ md_heap s' = md_heap s /\ templates s' = templates s /\
  (forall i el, el_heap s !! i = Some el -> el_heap s' !! i = Some el).
Proof.
  intros Hwf. resolve_cases s h; [discriminate| |].
  - intros [= <- <-]. pose proof Hwf as [W1 _]. unfold element_of in E.
    split; [exact Hwf|]. conj_split; eauto.
  - intros [= <- <-].
    destruct Hwf as (W1 & W2 & W3 & W5 & W6). unfold wf; simpl.
    rewrite length_app; simpl. conj_split; try lia; try exact W5.
    + intros k e. intros [Hk|[_ ->]]%lookup_assign_property_Some; [|lia].
      specialize (W1 _ _ Hk). lia.
    + intros e el [[He Hel]|[-> <-]]%lookup_snoc_Some k x Hin; [eauto|done].
    + intros e el [[He Hel]|[-> <-]]%lookup_snoc_Some k x Hin; [eauto|done].
    + intros e el [[He Hel]|[-> <-]]%lookup_snoc_Some; [eauto|constructor].
    + intros i el Hi. by apply lookup_app_l_Some.
Qed.

(** Rewriting one State: its back-reference is kept. *)
Lemma wf_write_state s x st st' :
  wf s -> st_heap s !! x = Some st -> st_element st' = st_element st ->
  wf (set_st_heap (<[x := st']> (st_heap s)) s).
Proof.
  intros (W1 & W2 & W3 & W5 & W6) Hx Hel. unfold wf; simpl. rewrite length_insert.
  conj_split; auto.
  intros e el He k y Hin. destruct (W2 e el He k y Hin) as (sty & Hy & Hye & Ht).
  destruct (decide (x = y)) as [<-|Hne].
  - exists st'. rewrite list_lookup_insert_eq by (eapply lookup_lt_Some; eauto).
    rewrite Hx in Hy. injection Hy as <-. by rewrite Hel.
  - exists sty. by rewrite list_lookup_insert_ne.
Qed.

Lemma wf_write_modifier s m mo mo' :
  wf s -> md_heap s !! m = Some mo -> md_element mo' = md_element mo ->
  (forall y, In y (md_states mo') -> y < length (st_heap s)) ->
  wf (set_md_heap (<[m := mo']> (md_heap s)) s).
Proof.
  intros (W1 & W2 & W3 & W5 & W6) Hm Hel Hst. unfold wf; simpl.
  conj_split; auto.
  - intros e el He k y Hin. destruct (W3 e el He k y Hin) as (moy & Hy & Hye & Ht).
    destruct (decide (m = y)) as [<-|Hne].
    + exists mo'. rewrite list_lookup_insert_eq by (eapply lookup_lt_Some; eauto).
      rewrite Hm in Hy. injection Hy as <-. by rewrite Hel.
    + exists moy. by rewrite list_lookup_insert_ne.
  - intros m' mo'' H. apply list_lookup_insert_Some in H as [(<- & <- & _)|(_ & H)]; eauto.
Qed.

Lemma subscribe_ok s m x :
  wf s -> x < length (st_heap s) -> m < length (md_heap s) ->
  exists s', Modifier_subscribe m x s = (Ok tt, s') /\ wf s' /\
    el_heap s' = el_heap s /\ elements s' = elements s /\
    getElementKey s' = getElementKey s /\ templates s' = templates s /\
    length (st_heap s') = length (st_heap s) /\ length (md_heap s') = length (md_heap s) /\
    mod_states s' m = mod_states s m ++ [x] /\
    (forall m', m' <> m -> mod_states s' m' = mod_states s m') /\
    (forall y, state_subs s' y = state_subs s y ++ (if decide (y = x) then [m] else [])).
Proof.
  intros Hwf Hx Hm.
  destruct (lookup_lt_is_Some_2 _ _ Hx) as [st Hst].
  destruct (lookup_lt_is_Some_2 _ _ Hm) as [mo Hmo].
  unfold Modifier_subscribe, State_addModifier, bind, deref_state, deref_modifier,
    write_state, write_modifier, modify. simpl. rewrite Hst. simpl. rewrite Hmo.
  eexists. split; [reflexivity|].
  assert (Hwf1 := wf_write_state s x st
            (mkState (st_element st) (st_callback st) (st_modifiers st ++ [m])) Hwf Hst eq_refl).
  split.
  { apply (wf_write_modifier _ m mo); simpl; auto.
    intros y [Hy|[<-|[]]]%in_app_iff.
    - destruct Hwf as (_ & _ & _ & W5 & _). rewrite length_insert. eauto.
    - by rewrite length_insert. }
  simpl. rewrite !length_insert. conj_split; auto.
  - unfold mod_states; simpl. by rewrite list_lookup_insert_eq, Hmo.
  - intros m' Hne. unfold mod_states; simpl. by rewrite list_lookup_insert_ne by done.
  - intros y. unfold state_subs; simpl. destruct (decide (y = x)) as [->|Hne].
    + by rewrite list_lookup_insert_eq, Hst.
    + rewrite list_lookup_insert_ne by done. by rewrite app_nil_r.
Qed.

Lemma subscribe_all_ok s m (L : list nat) :
  wf s -> (forall x, In x L -> x < length (st_heap s)) -> m < length (md_heap s) ->
  exists s', for_each L (Modifier_subscribe m) s = (Ok tt, s') /\ wf s' /\
    el_heap s' = el_heap s /\ elements s' = elements s /\
    getElementKey s' = getElementKey s /\ templates s' = templates s /\
    length (st_heap s') = length (st_heap s) /\ length (md_heap s') = length (md_heap s) /\
    mod_states s' m = mod_states s m ++ L /\
    (forall m', m' <> m -> mod_states s' m' = mod_states s m') /\
    (forall y, state_subs s' y = state_subs s y ++ repeat m (count_occ Nat.eq_dec L y)).
Proof.
  revert s; induction L as [|x L IH]; intros s Hwf HL Hm; simpl.
  - exists s. rewrite !app_nil_r. conj_split; auto. intros y. by rewrite app_nil_r.
  - destruct (subscribe_ok s m x Hwf (HL x (or_introl eq_refl)) Hm)
      as (s1 & E1 & Hwf1 & Hel1 & Hes1 & Hk1 & Ht1 & Hst1 & Hmd1 & Hms1 & Hms1' & Hss1).
    destruct (IH s1 Hwf1) as (s2 & E2 & Hwf2 & Hel2 & Hes2 & Hk2 & Ht2 & Hst2 & Hmd2 & Hms2 & Hms2' & Hss2).
    { intros y Hy. rewrite Hst1. apply HL. by right. }
    { by rewrite Hmd1. }
    exists s2. rewrite (bind_ok _ _ _ _ _ E1). split; [exact E2|].
    conj_split; try congruence.
    + rewrite Hms2, Hms1. by rewrite <- app_assoc.
    + intros m' Hne. rewrite Hms2', Hms1'; done.
    + intros y. rewrite Hss2, Hss1, <- app_assoc. f_equal.
      destruct (decide (y = x)) as [->|Hne].
      * destruct (Nat.eq_dec x x); [|done]. done.
      * destruct (Nat.eq_dec x y); [congruence|]. done.
Qed.

Lemma statesContainer_get_eq s k :
  statesContainer_get k s =
    match state_lookup s k with
    | None => (Exc TypeError, s)
    | Some cb => (Ok (length (st_heap s)), set_st_heap (st_heap s ++ [mkState None cb []]) s)
    end.
Proof. unfold statesContainer_get, alloc_state. by case_match. Qed.

Lemma modifiersContainer_get_eq s k :
  modifiersContainer_get k s =
    match modifier_lookup s k with
    | None => (Exc TypeError, s)
    | Some cb => (Ok (length (md_heap s)), set_md_heap (md_heap s ++ [mkModifier None cb []]) s)
    end.
Proof. unfold modifiersContainer_get, alloc_modifier. by case_match. Qed.

Lemma wf_alloc_state s st : wf s -> wf (set_st_heap (st_heap s ++ [st]) s).
Proof.
  intros (W1 & W2 & W3 & W5 & W6). unfold wf; simpl. rewrite length_app; simpl.
  conj_split; auto.
  - intros e el He k x Hin. destruct (W2 e el He k x Hin) as (st' & ? & ? & ?).
    exists st'. split; [by apply lookup_app_l_Some|auto].
  - intros m mo Hm x Hx. specialize (W5 m mo Hm x Hx). lia.
Qed.

Lemma wf_alloc_modifier s mo :
  wf s -> (forall x, In x (md_states mo) -> x < length (st_heap s)) ->
  wf (set_md_heap (md_heap s ++ [mo]) s).
Proof.
  intros (W1 & W2 & W3 & W5 & W6) Hmo. unfold wf; simpl.
  conj_split; auto.
  - intros e el He k x Hin. destruct (W3 e el He k x Hin) as (mo' & ? & ? & ?).
    exists mo'. split; [by apply lookup_app_l_Some|auto].
  - intros m mo' [[_ Hm]|[_ <-]]%lookup_snoc_Some; eauto.
Qed.

Definition attach_state_st (s : St) (d : nat) (k : string) (x : nat) (el : Element) (st : State) : St :=
  set_el_heap (<[d := mkElement (el_host el) (js_set k x (el_states el)) (el_modifiers el)]>
                 (el_heap s))
    (set_st_heap (<[x := mkState (Some d) (st_callback st) (st_modifiers st)]> (st_heap s)) s).

Definition attach_modifier_st (s : St) (d : nat) (k : string) (m : nat) (el : Element) (mo : Modifier) : St :=
  set_el_heap (<[d := mkElement (el_host el) (el_states el) (js_set k m (el_modifiers el))]>
                 (el_heap s))
    (set_md_heap (<[m := mkModifier (Some d) (md_callback mo) (md_states mo)]> (md_heap s)) s).

Lemma attachState_eq s d k x el st :
  el_heap s !! d = Some el -> st_heap s !! x = Some st ->
  Element_attachState d k x s = (Ok tt, attach_state_st s d k x el st).
Proof.
  intros Hd Hx. unfold Element_attachState, State_setElement, bind, deref_state,
    deref_el, write_state, write_el, modify, ret. simpl. rewrite Hx. simpl. by rewrite Hd.
Qed.

Lemma attachModifier_eq s d k m el mo :
  el_heap s !! d = Some el -> md_heap s !! m = Some mo ->
  Element_attachModifier d k m s = (Ok tt, attach_modifier_st s d k m el mo).
Proof.
  intros Hd Hm. unfold Element_attachModifier, Modifier_setElement, bind, deref_modifier,
    deref_el, write_modifier, write_el, modify, ret. simpl. rewrite Hm. simpl. by rewrite Hd.
Qed.

Lemma wf_attach_state s d k x el st :
  wf s -> el_heap s !! d = Some el -> st_heap s !! x = Some st ->
  st_element st = None -> is_Some (state_lookup s k) ->
  wf (attach_state_st s d k x el st).
Proof.
  intros (W1 & W2 & W3 & W5 & W6) Hd Hx Hfree Hk. unfold wf, attach_state_st; simpl.
  rewrite !length_insert. conj_split; auto.
  - (* a State reachable from an Element other than through [x] is untouched *)
    assert (Hother : forall e el' k' y, el_heap s !! e = Some el' -> In (k', y) (el_states el') ->
              exists st', <[x := mkState (Some d) (st_callback st) (st_modifiers st)]> (st_heap s) !! y = Some st' /\
                          st_element st' = Some e /\ is_Some (state_lookup s k')).
    { intros e el' k' y He Hin. destruct (W2 e el' He k' y Hin) as (sty & Hy & Hye & Ht).
      exists sty. rewrite list_lookup_insert_ne; [done|]. intros ->. congruence. }
    intros e el' He k' y Hin. apply list_lookup_insert_Some in He as [(<- & <- & _)|(Hne & He)].
    + simpl in Hin. apply In_js_set in Hin as [[= -> ->]|Hin].
      * eexists. rewrite list_lookup_insert_eq by (eapply lookup_lt_Some; eauto). done.
      * eauto.
    + eauto.
  - intros e el' He k' m Hin. apply list_lookup_insert_Some in He as [(<- & <- & _)|(Hne & He)];
      simpl in Hin; eauto.
  - intros e el' He. apply list_lookup_insert_Some in He as [(<- & <- & _)|(Hne & He)]; simpl; eauto.
    apply NoDup_js_set. eauto.
Qed.

Lemma wf_attach_modifier s d k m el mo :
  wf s -> el_heap s !! d = Some el -> md_heap s !! m = Some mo ->
  md_element mo = None -> is_Some (modifier_lookup s k) ->
  wf (attach_modifier_st s d k m el mo).
Proof.
  intros (W1 & W2 & W3 & W5 & W6) Hd Hm Hfree Hk. unfold wf, attach_modifier_st; simpl.
  rewrite !length_insert. conj_split; auto.
  - intros e el' He k' y Hin. apply list_lookup_insert_Some in He as [(<- & <- & _)|(Hne & He)];
      simpl in Hin; eauto.
  - assert (Hother : forall e el' k' y, el_heap s !! e = Some el' -> In (k', y) (el_modifiers el') ->
              exists mo', <[m := mkModifier (Some d) (md_callback mo) (md_states mo)]> (md_heap s) !! y = Some mo' /\
                          md_element mo' = Some e /\ is_Some (modifier_lookup s k')).
    { intros e el' k' y He Hin. destruct (W3 e el' He k' y Hin) as (moy & Hy & Hye & Ht).
      exists moy. rewrite list_lookup_insert_ne; [done|]. intros ->. congruence. }
    intros e el' He k' y Hin. apply list_lookup_insert_Some in He as [(<- & <- & _)|(Hne & He)].
    + simpl in Hin. apply In_js_set in Hin as [[= -> ->]|Hin].
      * eexists. rewrite list_lookup_insert_eq by (eapply lookup_lt_Some; eauto). done.
      * eauto.
    + eauto.
  - intros m' mo' Hm'. apply list_lookup_insert_Some in Hm' as [(<- & <- & _)|(_ & Hm')]; simpl; eauto.
  - intros e el' He. apply list_lookup_insert_Some in He as [(<- & <- & _)|(Hne & He)]; simpl; eauto.
Qed.

Lemma getState_eq s d k el :
  el_heap s !! d = Some el -> Element_getState d k s = (Ok (js_lookup k (el_states el)), s).
Proof. intros Hd. unfold Element_getState, bind, deref_el. by rewrite Hd. Qed.

Lemma getModifier_eq s d k el :
  el_heap s !! d = Some el -> Element_getModifier d k s = (Ok (js_lookup k (el_modifiers el)), s).
Proof. intros Hd. unfold Element_getModifier, bind, deref_el. by rewrite Hd. Qed.

Lemma state_at_eq s d k el : el_heap s !! d = Some el -> state_at s d k = js_get k (el_states el).
Proof. intros Hd. unfold state_at. by rewrite Hd. Qed.

Lemma modifier_at_eq s d k el : el_heap s !! d = Some el -> modifier_at s d k = js_get k (el_modifiers el).
Proof. intros Hd. unfold modifier_at. by rewrite Hd. Qed.

Lemma ensure_state_present s d sn el x :
  el_heap s !! d = Some el -> js_get sn (el_states el) = Some x -> ensure_state d sn s = (Ok tt, s).
Proof.
  intros Hd Hx. unfold ensure_state. rewrite (bind_ok _ _ _ _ _ (getState_eq _ _ _ _ Hd)).
  unfold js_lookup. by rewrite Hx.
Qed.

Lemma ensure_modifier_present s t mn el m :
  el_heap s !! t = Some el -> js_get mn (el_modifiers el) = Some m -> ensure_modifier t mn s = (Ok tt, s).
Proof.
  intros Hd Hx. unfold ensure_modifier. rewrite (bind_ok _ _ _ _ _ (getModifier_eq _ _ _ _ Hd)).
  unfold js_lookup. by rewrite Hx.
Qed.

Lemma ensure_state_spec s d sn el :
  wf s -> el_heap s !! d = Some el ->
  (state_lookup s sn = None /\ js_lookup sn (el_states el) = JUndefined /\
   ensure_state d sn s = (Exc TypeError, s)) \/
  (exists s', ensure_state d sn s = (Ok tt, s') /\ wf s' /\
     (is_Some (state_at s' d sn) \/ (object_member sn = true /\ js_get sn (el_states el) = None /\ s' = s)) /\
     elements s' = elements s /\ getElementKey s' = getElementKey s /\ templates s' = templates s /\
     length (el_heap s') = length (el_heap s) /\ md_heap s' = md_heap s /\
     (forall e k, modifier_at s' e k = modifier_at s e k) /\
     (forall e k, is_Some (state_at s e k) -> is_Some (state_at s' e k))).
Proof.
  intros Hwf Hd.
  destruct (js_get sn (el_states el)) as [x|] eqn:Hx.
  { right. exists s. rewrite (ensure_state_present _ _ _ _ _ Hd Hx).
    split; [done|]. split; [done|]. split; [|by conj_split].
    left. rewrite (state_at_eq _ _ _ _ Hd). by rewrite Hx. }
  destruct (object_member sn) eqn:Hob.
  { right. exists s. unfold ensure_state. rewrite (bind_ok _ _ _ _ _ (getState_eq _ _ _ _ Hd)).
    unfold js_lookup. rewrite Hx, Hob. split; [done|]. split; [done|]. split; [|by conj_split].
    by right. }
  assert (Hu : js_lookup sn (el_states el) = JUndefined) by (unfold js_lookup; by rewrite Hx, Hob).
  unfold ensure_state. rewrite (bind_ok _ _ _ _ _ (getState_eq _ _ _ _ Hd)), Hu.
  destruct (state_lookup s sn) as [cb|] eqn:Hcb.
  2:{ left. split; [done|]. split; [done|]. apply bind_exc. by rewrite statesContainer_get_eq, Hcb. }
  right. rewrite (bind_ok _ _ _ _ _ (eq_trans (statesContainer_get_eq s sn) ltac:(rewrite Hcb; reflexivity))).
  set (s1 := set_st_heap (st_heap s ++ [mkState None cb []]) s).
  assert (Hd1 : el_heap s1 !! d = Some el) by exact Hd.
  assert (Hx1 : st_heap s1 !! length (st_heap s) = Some (mkState None cb [])).
  { simpl. by rewrite lookup_app_r, Nat.sub_diag. }
  rewrite (attachState_eq _ _ _ _ _ _ Hd1 Hx1). eexists. split; [reflexivity|].
  assert (Hdl : d < length (el_heap s)) by (eapply lookup_lt_Some; eauto).
  split.
  { apply wf_attach_state; [by apply wf_alloc_state|exact Hd1|exact Hx1|done|exact (mk_is_Some _ _ Hcb)]. }
  unfold attach_state_st; simpl. rewrite length_insert. conj_split.
  - left. unfold state_at; simpl. rewrite list_lookup_insert_eq by done. simpl.
    rewrite js_get_set_eq. done.
  - intros e k. unfold modifier_at; simpl. destruct (decide (e = d)) as [->|Hne].
    + rewrite list_lookup_insert_eq by done. by rewrite Hd.
    + by rewrite list_lookup_insert_ne by done.
  - intros e k. unfold state_at; simpl. destruct (decide (e = d)) as [->|Hne].
    + rewrite list_lookup_insert_eq by done. rewrite Hd. simpl. rewrite js_get_set. case_match; eauto.
    + by rewrite list_lookup_insert_ne by done.
Qed.

Lemma ensure_modifier_spec s t mn el :
  wf s -> el_heap s !! t = Some el ->
  (modifier_lookup s mn = None /\ js_lookup mn (el_modifiers el) = JUndefined /\
   ensure_modifier t mn s = (Exc TypeError, s)) \/
  (exists s', ensure_modifier t mn s = (Ok tt, s') /\ wf s' /\
     (is_Some (modifier_at s' t mn) \/ (object_member mn = true /\ js_get mn (el_modifiers el) = None /\ s' = s)) /\
     elements s' = elements s /\ getElementKey s' = getElementKey s /\ templates s' = templates s /\
     length (el_heap s') = length (el_heap s) /\ st_heap s' = st_heap s /\
     (forall e k, state_at s' e k = state_at s e k) /\
     (forall e k, is_Some (modifier_at s e k) -> is_Some (modifier_at s' e k))).
Proof.
  intros Hwf Hd.
  destruct (js_get mn (el_modifiers el)) as [x|] eqn:Hx.
  { right. exists s. rewrite (ensure_modifier_present _ _ _ _ _ Hd Hx).
    split; [done|]. split; [done|]. split; [|by conj_split].
    left. rewrite (modifier_at_eq _ _ _ _ Hd). by rewrite Hx. }
  destruct (object_member mn) eqn:Hob.
  { right. exists s. unfold ensure_modifier. rewrite (bind_ok _ _ _ _ _ (getModifier_eq _ _ _ _ Hd)).
    unfold js_lookup. rewrite Hx, Hob. split; [done|]. split; [done|]. split; [|by conj_split].
    by right. }
  assert (Hu : js_lookup mn (el_modifiers el) = JUndefined) by (unfold js_lookup; by rewrite Hx, Hob).
  unfold ensure_modifier. rewrite (bind_ok _ _ _ _ _ (getModifier_eq _ _ _ _ Hd)), Hu.
  destruct (modifier_lookup s mn) as [cb|] eqn:Hcb.
  2:{ left. split; [done|]. split; [done|]. apply bind_exc. by rewrite modifiersContainer_get_eq, Hcb. }
  right. rewrite (bind_ok _ _ _ _ _ (eq_trans (modifiersContainer_get_eq s mn) ltac:(rewrite Hcb; reflexivity))).
  set (s1 := set_md_heap (md_heap s ++ [mkModifier None cb []]) s).
  assert (Hd1 : el_heap s1 !! t = Some el) by exact Hd.
  assert (Hx1 : md_heap s1 !! length (md_heap s) = Some (mkModifier None cb [])).
  { simpl. by rewrite lookup_app_r, Nat.sub_diag. }
  rewrite (attachModifier_eq _ _ _ _ _ _ Hd1 Hx1). eexists. split; [reflexivity|].
  assert (Hdl : t < length (el_heap s)) by (eapply lookup_lt_Some; eauto).
  split.
  { apply wf_attach_modifier; [apply wf_alloc_modifier; [done|simpl; done]|exact Hd1|exact Hx1|done|exact (mk_is_Some _ _ Hcb)]. }
  unfold attach_modifier_st; simpl. rewrite length_insert. conj_split.
  - left. unfold modifier_at; simpl. rewrite list_lookup_insert_eq by done. simpl.
    rewrite js_get_set_eq. done.
  - intros e k. unfold state_at; simpl. destruct (decide (e = t)) as [->|Hne].
    + rewrite list_lookup_insert_eq by done. by rewrite Hd.
    + by rewrite list_lookup_insert_ne by done.
  - intros e k. unfold modifier_at; simpl. destruct (decide (e = t)) as [->|Hne].
    + rewrite list_lookup_insert_eq by done. rewrite Hd. simpl. rewrite js_get_set. case_match; eauto.
    + by rewrite list_lookup_insert_ne by done.
Qed.

Lemma resolve_spec h s :
  wf s ->
  (is_Some (elements s !! "hasOwnProperty") /\ resolve h s = (Exc TypeError, s)) \/
  exists e s', resolve h s = (Ok e, s') /\ wf s' /\
    elements s !! "hasOwnProperty" = None /\
    (getElementKey s h <> "__proto__" -> element_of s' h = Some e) /\
    (forall k, k <> getElementKey s h -> elements s' !! k = elements s !! k) /\
    getElementKey s' = getElementKey s /\ map_ext (elements s) (elements s') /\
    e < length (el_heap s') /\
    (forall i el, el_heap s !! i = Some el -> el_heap s' !! i = Some el) /\
    st_heap s' = st_heap s /\ md_heap s' = md_heap s /\ templates s' = templates s.
Proof.
  intros Hwf.
  destruct (elements s !! "hasOwnProperty") eqn:P.
  { left. split; [by eexists|]. apply resolve_poisoned. rewrite P. by eexists. }
  right.
  assert (Htot : exists e s', resolve h s = (Ok e, s')).
  { destruct (element_of s h) eqn:E; eexists _, _;
      [apply resolve_found | apply resolve_new]; done. }
  destruct Htot as (e & s' & E). exists e, s'. split; [done|].
  destruct (wf_resolve h s e s' Hwf E) as (Hwf' & He & _ & Hst & Hmd & Ht & Hpre).
  destruct (resolve_registers h s e s' E) as (Hk & _ & Hreg & Hoth).
  assert (Hext := resolve_map_ext h s). rewrite E in Hext.
  conj_split; assumption.
Qed.

Lemma state_at_keep s s' e k :
  (forall i el, el_heap s !! i = Some el -> el_heap s' !! i = Some el) ->
  is_Some (el_heap s !! e) -> state_at s' e k = state_at s e k.
Proof. intros Hpre [el Hel]. unfold state_at. by rewrite (Hpre _ _ Hel), Hel. Qed.

Lemma modifier_at_keep s s' e k :
  (forall i el, el_heap s !! i = Some el -> el_heap s' !! i = Some el) ->
  is_Some (el_heap s !! e) -> modifier_at s' e k = modifier_at s e k.
Proof. intros Hpre [el Hel]. unfold modifier_at. by rewrite (Hpre _ _ Hel), Hel. Qed.

Lemma wire_spec s dh sn th mn :
  wf s ->
  match createRelationship_wire dh sn th mn s with
  | (r, s') =>
      wf s' /\ getElementKey s' = getElementKey s /\ templates s' = templates s /\
      (forall k, k <> getElementKey s dh -> k <> getElementKey s th ->
                 elements s' !! k = elements s !! k) /\
      forall d m, r = Ok (d, m) ->
        (getElementKey s dh <> "__proto__" -> element_of s' dh = Some d) /\
        (exists t, (getElementKey s th <> "__proto__" -> element_of s' th = Some t) /\
                   modifier_at s' t mn = Some m) /\
        d < length (el_heap s') /\ m < length (md_heap s') /\
        (exists x, state_at s' d sn = Some x /\ In x (mod_states s' m) /\ In m (state_subs s' x))
  end.
Proof.
  intros Hwf. unfold createRelationship_wire.
  destruct (resolve_spec dh s Hwf)
    as [(_ & E1) | (d & s1 & E1 & Hwf1 & _ & Hreg1 & Hoth1 & Hk1 & _ & Hd1 & Hpre1 & _ & _ & Ht1)].
  { rewrite (bind_exc _ _ _ _ _ E1). conj_split; try solve [done | intros ? ? ?; discriminate]. }
  rewrite (bind_ok _ _ _ _ _ E1).
  destruct (lookup_lt_is_Some_2 _ _ Hd1) as [eld Held].
  destruct (ensure_state_spec s1 d sn eld Hwf1 Held)
    as [(_ & _ & E2) | (s2 & E2 & Hwf2 & _ & Hes2 & Hk2 & Ht2 & Hl2 & _ & _ & _)].
  { rewrite (bind_exc _ _ _ _ _ E2). conj_split; try solve [done | intros ? ? ?; discriminate].
    intros k Hk _. by apply Hoth1. }
  rewrite (bind_ok _ _ _ _ _ E2).
  destruct (resolve_spec th s2 Hwf2)
    as [(_ & E3) | (t & s3 & E3 & Hwf3 & Hpo3 & Hreg3 & Hoth3 & Hk3 & _ & Ht3 & Hpre3 & _ & _ & Ht3')].
  { rewrite (bind_exc _ _ _ _ _ E3). conj_split; try solve [done | congruence | intros ? ? ?; discriminate].
    intros k Hk _. rewrite Hes2. by apply Hoth1. }
  rewrite (bind_ok _ _ _ _ _ E3).
  destruct (lookup_lt_is_Some_2 _ _ Ht3) as [elt Helt].
  destruct (ensure_modifier_spec s3 t mn elt Hwf3 Helt)
    as [(_ & _ & E4) | (s4 & E4 & Hwf4 & _ & Hes4 & Hk4 & Ht4 & Hl4 & _ & Hsa4 & _)].
  { rewrite (bind_exc _ _ _ _ _ E4). conj_split; try solve [done | congruence | intros ? ? ?; discriminate].
    intros k Hk Hk'. rewrite Hoth3 by congruence. rewrite Hes2. by apply Hoth1. }
  rewrite (bind_ok _ _ _ _ _ E4).
  assert (Hoth4 : forall k, k <> getElementKey s dh -> k <> getElementKey s th ->
                  elements s4 !! k = elements s !! k).
  { intros k Hk Hk'. rewrite Hes4, Hoth3 by congruence. rewrite Hes2. by apply Hoth1. }
  assert (Hd2 : is_Some (el_heap s2 !! d)) by (apply lookup_lt_is_Some_2; lia).
  assert (Hd4 : d < length (el_heap s4)).
  { rewrite Hl4. apply lookup_lt_is_Some_1. destruct Hd2 as [? Hx]. eexists. apply Hpre3, Hx. }
  destruct (lookup_lt_is_Some_2 _ _ Hd4) as [eld4 Held4].
  rewrite (bind_ok _ _ _ _ _ (getState_eq _ _ _ _ Held4)).
  assert (Ht4' : t < length (el_heap s4)) by (rewrite Hl4; done).
  destruct (lookup_lt_is_Some_2 _ _ Ht4') as [elt4 Helt4].
  rewrite (bind_ok _ _ _ _ _ (getModifier_eq _ _ _ _ Helt4)).
  destruct (js_get mn (el_modifiers elt4)) as [m|] eqn:Hm.
  2:{ unfold js_lookup. rewrite Hm.
      assert (Hgoal : wf s4 /\ getElementKey s4 = getElementKey s /\ templates s4 = templates s /\
                      (forall k, k <> getElementKey s dh -> k <> getElementKey s th ->
                                 elements s4 !! k = elements s !! k)).
      { conj_split; congruence || done. }
      destruct (object_member mn); unfold throw; (split; [|split; [|split; [|split]]]);
        try apply Hgoal; discriminate. }
  assert (Hlm : js_lookup mn (el_modifiers elt4) = JInstance m) by (unfold js_lookup; by rewrite Hm).
  rewrite Hlm.
  destruct (js_get sn (el_states eld4)) as [x|] eqn:Hx.
  2:{ unfold js_lookup. rewrite Hx.
      assert (Hgoal : wf s4 /\ getElementKey s4 = getElementKey s /\ templates s4 = templates s /\
                      (forall k, k <> getElementKey s dh -> k <> getElementKey s th ->
                                 elements s4 !! k = elements s !! k)).
      { conj_split; congruence || done. }
      destruct (object_member sn); unfold throw; (split; [|split; [|split; [|split]]]);
        try apply Hgoal; discriminate. }
  assert (Hlx : js_lookup sn (el_states eld4) = JInstance x) by (unfold js_lookup; by rewrite Hx).
  rewrite Hlx.
  destruct (state_at_valid s4 d sn x Hwf4) as (stx & Hstx & _).
  { by rewrite (state_at_eq _ _ _ _ Held4). }
  destruct (modifier_at_valid s4 t mn m Hwf4) as (mom & Hmom & _).
  { by rewrite (modifier_at_eq _ _ _ _ Helt4). }
  destruct (subscribe_ok s4 m x Hwf4 (lookup_lt_Some _ _ _ Hstx) (lookup_lt_Some _ _ _ Hmom))
    as (s5 & E5 & Hwf5 & Hel5 & Hes5 & Hk5 & Ht5 & Hst5 & Hmd5 & Hms5 & _ & Hss5).
  rewrite (bind_ok _ _ _ _ _ E5). simpl.
  split; [done|]. split; [congruence|]. split; [congruence|]. split.
  { intros k Hk Hk'. rewrite Hes5. by apply Hoth4. }
  assert (Hreg1' : getElementKey s dh <> "__proto__" -> elements s1 !! getElementKey s dh = Some d).
  { intros Hq. rewrite <- Hk1. exact (Hreg1 Hq). }
  intros d' m' [= <- <-]. conj_split.
  - intros Hkd. unfold element_of. rewrite Hes5, Hes4, Hk5, Hk4, Hk3, Hk2, Hk1.
    destruct (decide (getElementKey s th = getElementKey s dh)) as [Heq|Hne].
    + (* the same key: the second [resolve] finds the first Element *)
      assert (Hf : element_of s2 th = Some d).
      { unfold element_of. rewrite Hes2, Hk2, Hk1, Heq. apply Hreg1', Hkd. }
      rewrite (resolve_found th s2 d Hpo3 Hf) in E3. injection E3 as <- <-.
      rewrite Hes2. apply Hreg1', Hkd.
    + rewrite Hoth3 by (rewrite Hk2, Hk1; congruence). rewrite Hes2. apply Hreg1', Hkd.
  - exists t. split.
    + intros Hkt. unfold element_of. rewrite Hes5, Hes4, Hk5, Hk4. apply Hreg3.
      rewrite Hk2, Hk1. exact Hkt.
    + unfold modifier_at. rewrite Hel5, Helt4. exact Hm.
  - rewrite Hel5. done.
  - rewrite Hmd5. eapply lookup_lt_Some; eauto.
  - exists x. split; [unfold state_at; rewrite Hel5, Held4; exact Hx|]. split.
    + rewrite Hms5. apply in_app_iff. right. by left.
    + rewrite Hss5. destruct (decide (x = x)); [|done]. apply in_app_iff. right. by left.
Qed.

(** ** The invariant over every reachable state *)

Lemma template_insert_is_Some {C} (own : gmap string C) props proto k cb k' :
  is_Some (template_lookup own props proto k') ->
  is_Some (template_lookup (<[k := cb]> own) props proto k').
Proof.
  unfold template_lookup. destruct (decide (k = k')) as [->|Hne].
  - rewrite lookup_insert_eq. eauto.
  - by rewrite lookup_insert_ne by done.
Qed.

Lemma template_proto_is_Some {C} (own : gmap string C) props (proto : option C) cb k' :
  is_Some (template_lookup own props proto k') ->
  is_Some (template_lookup own props (Some cb) k').
Proof.
  unfold template_lookup, inherited_template. destruct (own !! k'); [done|].
  destruct (String.eqb k' "__proto__"); [eauto|].
  destruct (String.eqb k' "element") eqn:Hel.
  - apply String.eqb_eq in Hel as ->. destruct proto; simpl; intros [? H]; discriminate.
  - destruct proto; [done|]. destruct (object_member k'); [|intros [? H]; discriminate].
    rewrite orb_true_r. eauto.
Qed.

Lemma wf_lookup_mono s s' :
  elements s' = elements s -> el_heap s' = el_heap s -> st_heap s' = st_heap s ->
  md_heap s' = md_heap s ->
  (forall k, is_Some (state_lookup s k) -> is_Some (state_lookup s' k)) ->
  (forall k, is_Some (modifier_lookup s k) -> is_Some (modifier_lookup s' k)) ->
  wf s -> wf s'.
Proof.
  intros He Hel Hst Hmd Hs Hm (W1 & W2 & W3 & W5 & W6). unfold wf.
  rewrite He, Hel, Hst, Hmd. conj_split; auto.
  - intros e el H k x Hin. destruct (W2 e el H k x Hin) as (st & ? & ? & ?). eauto.
  - intros e el H k x Hin. destruct (W3 e el H k x Hin) as (mo & ? & ? & ?). eauto.
Qed.

Definition wview (s : St) :=
  (state_templates s, state_proto s, modifier_templates s, modifier_proto s,
   elements s, el_heap s, st_heap s, md_heap s).

Lemma wf_wview s s' : wview s = wview s' -> wf s -> wf s'.
Proof.
  unfold wview. intros [= H1 H2 H3 H4 H5 H6 H7 H8].
  apply wf_lookup_mono; try congruence;
    intros k; unfold state_lookup, modifier_lookup; rewrite ?H1, ?H2, ?H3, ?H4; done.
Qed.

Lemma modifyDependents_wview fuel e : preserves wview eq (modifyDependents fuel e).
Proof.
  apply preserves_modifyDependents; [done|congruence|intros ev s; done|intros f s; done].
Qed.

Lemma trigger_change_wview fuel h : preserves wview eq (trigger_change fuel h).
Proof.
  apply preserves_trigger_change; [done|congruence|intros ev s; done|intros f s; done].
Qed.

Lemma wf_add_state s k cb : wf s -> wf (snd (addState k cb s)).
Proof.
  unfold addState, statesContainer_add, modify. simpl.
  destruct (String.eqb k "__proto__"); apply wf_lookup_mono; try done;
    intros k'; unfold state_lookup; simpl;
    [apply template_proto_is_Some|apply template_insert_is_Some].
Qed.

Lemma wf_add_modifier s k cb : wf s -> wf (snd (addModifier k cb s)).
Proof.
  unfold addModifier, modifiersContainer_add, modify. simpl.
  destruct (String.eqb k "__proto__"); apply wf_lookup_mono; try done;
    intros k'; unfold modifier_lookup; simpl;
    [apply template_proto_is_Some|apply template_insert_is_Some].
Qed.

Lemma inherit_spec s d m mn :
  wf s -> d < length (el_heap s) -> m < length (md_heap s) ->
  let L := match modifier_at s d mn with Some m' => mod_states s m' | None => [] end in
  exists s', createRelationship_inherit d m mn s = (Ok tt, s') /\ wf s' /\
    el_heap s' = el_heap s /\ elements s' = elements s /\
    getElementKey s' = getElementKey s /\ templates s' = templates s /\
    length (st_heap s') = length (st_heap s) /\ length (md_heap s') = length (md_heap s) /\
    mod_states s' m = mod_states s m ++ L /\
    (forall m', m' <> m -> mod_states s' m' = mod_states s m') /\
    (forall y, state_subs s' y = state_subs s y ++ repeat m (count_occ Nat.eq_dec L y)) /\
    (modifier_at s d mn = None -> s' = s).
Proof.
  intros Hwf Hd Hm L.
  destruct (lookup_lt_is_Some_2 _ _ Hd) as [eld Held].
  unfold createRelationship_inherit. rewrite (bind_ok _ _ _ _ _ (getModifier_eq _ _ _ _ Held)).
  unfold L. rewrite (modifier_at_eq _ _ _ _ Held).
  destruct (js_get mn (el_modifiers eld)) as [m'|] eqn:Hm'.
  - unfold js_lookup. rewrite Hm'.
    destruct (modifier_at_valid s d mn m' Hwf) as (mo' & Hmo' & _).
    { by rewrite (modifier_at_eq _ _ _ _ Held). }
    assert (Hdr : deref_modifier m' s = (Ok mo', s)) by (unfold deref_modifier; by rewrite Hmo').
    rewrite (bind_ok _ _ _ _ _ Hdr).
    assert (Hms : mod_states s m' = md_states mo') by (unfold mod_states; by rewrite Hmo').
    rewrite Hms.
    destruct (subscribe_all_ok s m (md_states mo') Hwf) as (s' & E & Hrest); [|done|].
    { destruct Hwf as (_ & _ & _ & W5 & _). eauto. }
    exists s'. split; [exact E|]. destruct Hrest as (? & ? & ? & ? & ? & ? & ? & ? & ? & ?).
    conj_split; try assumption. discriminate.
  - exists s. unfold js_lookup. rewrite Hm'. split; [by destruct (object_member mn)|].
    conj_split; try done.
    + by rewrite app_nil_r.
    + intros y. by rewrite app_nil_r.
Qed.

Lemma wf_createRelationship s dh sn th mn b :
  wf s -> wf (snd (createRelationship dh sn th mn b s)).
Proof.
  intros Hwf. unfold createRelationship.
  pose proof (wire_spec s dh sn th mn Hwf) as Hw.
  destruct (createRelationship_wire dh sn th mn s) as [[[d m]|e] s1] eqn:E; unfold bind; rewrite E;
    destruct Hw as (Hwf1 & _ & _ & _ & Hok); [|done].
  destruct (Hok d m eq_refl) as (_ & _ & Hd & Hm & _).
  destruct b; simpl; [|done].
  destruct (inherit_spec s1 d m mn Hwf1 Hd Hm) as (s2' & E2 & Hwf2 & _). by rewrite E2.
Qed.

Lemma wf_run_op o s : wf s -> wf (snd (run_op o s)).
Proof.
  intros Hwf. destruct o; simpl.
  - by apply wf_add_state.
  - by apply wf_add_modifier.
  - by apply wf_createRelationship.
  - exact Hwf.
  - exact (wf_wview _ _ (trigger_change_wview fuel h s) Hwf).
  - exact Hwf.
Qed.

Lemma wf_run_ops os s : wf s -> wf (run_ops os s).
Proof.
  revert s; induction os as [|o os IH]; intros s Hwf; simpl; [done|].
  apply IH, wf_run_op, Hwf.
Qed.

Lemma reachable_wf s : reachable s -> wf s.
Proof. intros (os & w & ->). apply wf_run_ops, wf_init. Qed.

(** ** The fan-out *)

Lemma filter_active_eq s e el l acc :
  el_heap s !! e = Some el ->
  (forall k x, In (k, x) l -> exists st, st_heap s !! x = Some st /\ st_element st = Some e /\
                                         is_Some (st_callback st)) ->
  NoDup (map fst (acc ++ l)) ->
  filter_active l acc s = (Ok (acc ++ List.filter (fun p => is_active s el (snd p)) l), s).
Proof.
  intros He. revert acc.
  induction l as [|[k y] l IH]; intros acc Hl Hnd; simpl; [by rewrite app_nil_r|].
  destruct (Hl k y (or_introl eq_refl)) as (st & Hst & Hel & [cb Hcb]).
  assert (Ha : State_isActive y s = (Ok (is_active s el y), s)).
  { unfold State_isActive, is_active, bind, deref_state, deref_el, gets, ret.
    rewrite Hst, Hel, He. simpl. by rewrite Hcb. }
  rewrite (bind_ok _ _ _ _ _ Ha).
  rewrite map_app in Hnd. simpl in Hnd. apply NoDup_ListNoDup in Hnd.
  assert (Hk : ~ In k (map fst acc)).
  { intros Hin. apply (NoDup_remove_2 _ _ _ Hnd). apply in_app_iff. by left. }
  assert (Hl' : forall k' x, In (k', x) l -> exists st, st_heap s !! x = Some st /\
                  st_element st = Some e /\ is_Some (st_callback st)).
  { intros k' x Hin. exact (Hl k' x (or_intror Hin)). }
  destruct (is_active s el y) eqn:Hact.
  - rewrite js_set_fresh by (by apply js_get_None).
    rewrite IH; [|exact Hl'|].
    + simpl. by rewrite <- app_assoc.
    + apply NoDup_ListNoDup. rewrite !map_app. simpl. by rewrite <- app_assoc.
  - rewrite IH; [done|exact Hl'|]. apply NoDup_ListNoDup. rewrite map_app.
    exact (NoDup_remove_1 _ _ _ Hnd).
Qed.

Lemma getActiveStates_eq s e el :
  wf s -> el_heap s !! e = Some el -> callbacks_set s el = true ->
  Element_getActiveStates e s = (Ok (active_states s el), s).
Proof.
  intros (_ & W2 & _ & _ & W6) He Hcb. unfold Element_getActiveStates.
  assert (Hd : deref_el e s = (Ok el, s)) by (unfold deref_el; by rewrite He).
  rewrite (bind_ok _ _ _ _ _ Hd).
  apply (filter_active_eq s e el _ []); [exact He| |].
  - intros k x Hin. apply (proj1 (In_forin_order _ _)) in Hin. destruct (W2 e el He k x Hin) as (st & Hst & Hel & _).
    exists st. split; [done|]. split; [done|].
    unfold callbacks_set in Hcb. rewrite forallb_forall in Hcb.
    specialize (Hcb _ Hin). unfold has_callback in Hcb. simpl in Hcb. rewrite Hst in Hcb.
    destruct (st_callback st); [eauto|discriminate].
  - simpl. apply NoDup_ListNoDup. eapply Permutation_NoDup; [|apply NoDup_ListNoDup, (W6 e el He)].
    apply Permutation_map. symmetry. apply forin_order_perm.
Qed.

Lemma modifyDependents_eq f s e el :
  wf s -> el_heap s !! e = Some el -> callbacks_set s el = true ->
  modifyDependents (S f) e s = for_each (active_states s el) (fun p => State_publish f (snd p)) s.
Proof.
  intros Hwf He Hcb. simpl. rewrite (bind_ok _ _ _ _ _ (getActiveStates_eq _ _ _ Hwf He Hcb)).
  unfold active_states. by rewrite forin_order_filter.
Qed.

Lemma publish_eq md s x st :
  st_heap s !! x = Some st ->
  State_publish_with md x s =
    for_each (st_modifiers st) (Modifier_execute_with md) (set_trace (trace s ++ [EvPublish x]) s).
Proof. intros Hx. unfold State_publish_with, bind, deref_state, log, modify. by rewrite Hx. Qed.

Lemma execute_eq md s m mo e el cb :
  md_heap s !! m = Some mo -> md_element mo = Some e -> el_heap s !! e = Some el ->
  md_callback mo = Some cb ->
  Modifier_execute_with md m s =
    md e (set_trace (trace s ++ [EvMutate m]) (set_dom (cb (el_host el) (dom s)) s)).
Proof.
  intros Hm Hme He Hcb. unfold Modifier_execute_with, bind, deref_modifier, deref_el, log, modify.
  rewrite Hm, Hme. simpl. rewrite He. simpl. by rewrite Hcb.
Qed.





(** ** A repeated relationship setup *)




(** A successful [createRelationship]: what the wiring leaves, and what the
    inheritance step keeps of it. *)
Lemma createRelationship_ok s dh sn th mn b s1 :
  wf s -> createRelationship dh sn th mn b s = (Ok tt, s1) ->
  exists d t x m sw, createRelationship_wire dh sn th mn s = (Ok (d, m), sw) /\
    wf sw /\ wf s1 /\
    (getElementKey s dh <> "__proto__" -> element_of s1 dh = Some d) /\
    (getElementKey s th <> "__proto__" -> element_of s1 th = Some t) /\
    state_at s1 d sn = Some x /\ modifier_at s1 t mn = Some m /\
    In x (mod_states s1 m) /\ In m (state_subs s1 x) /\
    el_heap s1 = el_heap sw /\ elements s1 = elements sw /\ getElementKey s1 = getElementKey sw /\
    getElementKey sw = getElementKey s /\ templates s1 = templates s /\
    (b = false -> s1 = sw).
Proof.
  intros Hwf H. unfold createRelationship in H.
  pose proof (wire_spec s dh sn th mn Hwf) as Hw.
  destruct (createRelationship_wire dh sn th mn s) as [[[d m]|e] sw] eqn:E;
    [rewrite (bind_ok _ _ _ _ _ E) in H | by rewrite (bind_exc _ _ _ _ _ E) in H].
  destruct Hw as (Hwfw & Hkw & Htw & _ & Hok).
  destruct (Hok d m eq_refl) as (Hd & (t & Ht & Hm) & Hdl & Hml & x & Hx & Hxm & Hmx).
  destruct b; simpl in H.
  - destruct (inherit_spec sw d m mn Hwfw Hdl Hml)
      as (s2 & E2 & Hwf2 & Hel2 & Hes2 & Hk2 & Ht2 & _ & _ & Hms2 & _ & Hss2 & _).
    rewrite E2 in H. injection H as <-.
    exists d, t, x, m, sw. split; [done|]. split; [done|]. split; [done|].
    unfold element_of, state_at, modifier_at. rewrite Hel2, Hes2, Hk2.
    conj_split; try assumption; try congruence.
    + rewrite Hms2. apply in_app_iff. by left.
    + rewrite Hss2. apply in_app_iff. by left.
  - injection H as <-. exists d, t, x, m, sw. conj_split; done.
Qed.


Lemma wview_st_heap s s' : wview s = wview s' -> st_heap s = st_heap s'.
Proof. unfold wview. by intros [= _ _ _ _ _ _ ? _]. Qed.

Lemma wview_el_heap s s' : wview s = wview s' -> el_heap s = el_heap s'.
Proof. unfold wview. by intros [= _ _ _ _ _ ? _ _]. Qed.

Lemma wview_md_heap s s' : wview s = wview s' -> md_heap s = md_heap s'.
Proof. unfold wview. by intros [= _ _ _ _ _ _ _ ?]. Qed.




(** ** The shape of the setup steps *)

(** [ensure_state] either leaves the state as it is (a truthy lookup, or a
    lookup of the registry that throws) or allocates a fresh State from the
    registry's answer and attaches it under the missing key. *)
Lemma ensure_state_shape s d sn :
  snd (ensure_state d sn s) = s \/
  exists el cbo, el_heap s !! d = Some el /\ js_lookup sn (el_states el) = JUndefined /\
    state_lookup s sn = Some cbo /\
    ensure_state d sn s =
      (Ok tt, attach_state_st (set_st_heap (st_heap s ++ [mkState None cbo []]) s)
                d sn (length (st_heap s)) el (mkState None cbo [])).
Proof.
  destruct (el_heap s !! d) as [el|] eqn:Hd.
  2:{ left. unfold ensure_state, Element_getState, deref_el, bind. cbv beta. by rewrite Hd. }
  unfold ensure_state. rewrite (bind_ok _ _ _ _ _ (getState_eq _ _ _ _ Hd)).
  destruct (js_lookup sn (el_states el)) eqn:Hx; [|by left|by left].
  destruct (state_lookup s sn) as [cbo|] eqn:Hcb.
  2:{ left. by rewrite (bind_exc _ _ _ _ _ (eq_trans (statesContainer_get_eq s sn)
                                              ltac:(rewrite Hcb; reflexivity))). }
  right. exists el, cbo. do 3 (split; [done|]).
  rewrite (bind_ok _ _ _ _ _ (eq_trans (statesContainer_get_eq s sn) ltac:(rewrite Hcb; reflexivity))).
  apply attachState_eq; [exact Hd|]. simpl. by rewrite lookup_app_r, Nat.sub_diag.
Qed.

Lemma ensure_modifier_shape s t mn :
  snd (ensure_modifier t mn s) = s \/
  exists el cbo, el_heap s !! t = Some el /\ js_lookup mn (el_modifiers el) = JUndefined /\
    modifier_lookup s mn = Some cbo /\
    ensure_modifier t mn s =
      (Ok tt, attach_modifier_st (set_md_heap (md_heap s ++ [mkModifier None cbo []]) s)
                t mn (length (md_heap s)) el (mkModifier None cbo [])).
Proof.
  destruct (el_heap s !! t) as [el|] eqn:Hd.
  2:{ left. unfold ensure_modifier, Element_getModifier, deref_el, bind. cbv beta. by rewrite Hd. }
  unfold ensure_modifier. rewrite (bind_ok _ _ _ _ _ (getModifier_eq _ _ _ _ Hd)).
  destruct (js_lookup mn (el_modifiers el)) eqn:Hx; [|by left|by left].
  destruct (modifier_lookup s mn) as [cbo|] eqn:Hcb.
  2:{ left. by rewrite (bind_exc _ _ _ _ _ (eq_trans (modifiersContainer_get_eq s mn)
                                              ltac:(rewrite Hcb; reflexivity))). }
  right. exists el, cbo. do 3 (split; [done|]).
  rewrite (bind_ok _ _ _ _ _ (eq_trans (modifiersContainer_get_eq s mn) ltac:(rewrite Hcb; reflexivity))).
  apply attachModifier_eq; [exact Hd|]. simpl. by rewrite lookup_app_r, Nat.sub_diag.
Qed.

(** [subscribe] rewrites the State (and then the Modifier, if it exists),
    each time keeping its Element and its callback. *)
Lemma subscribe_shape s m x :
  snd (Modifier_subscribe m x s) = s \/
  exists st, st_heap s !! x = Some st /\
    let s1 := set_st_heap (<[x := mkState (st_element st) (st_callback st) (st_modifiers st ++ [m])]>
                             (st_heap s)) s in
    (md_heap s !! m = None /\ snd (Modifier_subscribe m x s) = s1) \/
    (exists mo, md_heap s !! m = Some mo /\
       snd (Modifier_subscribe m x s) =
         set_md_heap (<[m := mkModifier (md_element mo) (md_callback mo) (md_states mo ++ [x])]>
                        (md_heap s)) s1).
Proof.
  unfold Modifier_subscribe, State_addModifier, bind, deref_state, deref_modifier,
    write_state, write_modifier, modify. simpl.
  destruct (st_heap s !! x) as [st|] eqn:Hx; [|by left].
  right. exists st. split; [done|]. simpl.
  destruct (md_heap s !! m) as [mo|] eqn:Hm; [right; exists mo; by split | by left].
Qed.

Lemma js_lookup_undefined k l : js_lookup k l = JUndefined -> js_get k l = None /\ object_member k = false.
Proof. unfold js_lookup. destruct (js_get k l); [discriminate|]. by destruct (object_member k). Qed.

(** The registries and heaps; everything else is templates, the key
    function, the page and the trace. *)
Definition gview (s : St) :=
  (elements s, el_heap s, st_heap s, md_heap s, handlers s).

(** ** Relationship setup, given its four steps *)
Section FrameSetup.

Variable X : Type.
Variable view : St -> X.
Variable R : X -> X -> Prop.
Hypothesis R_refl : forall x, R x x.
Hypothesis R_trans : forall x y z, R x y -> R y z -> R x z.
Hypothesis H_resolve : forall h, preserves view R (resolve h).
Hypothesis H_ensure_state : forall d k, preserves view R (ensure_state d k).
Hypothesis H_ensure_modifier : forall t k, preserves view R (ensure_modifier t k).
Hypothesis H_subscribe : forall m x, preserves view R (Modifier_subscribe m x).
Hint Resolve H_resolve H_ensure_state H_ensure_modifier H_subscribe : pres.

Lemma preserves_wire' dh sn th mn : preserves view R (createRelationship_wire dh sn th mn).
Proof. unfold createRelationship_wire, Element_getState, Element_getModifier. pres_solve. Qed.

Lemma preserves_inherit' d m mn : preserves view R (createRelationship_inherit d m mn).
Proof. unfold createRelationship_inherit, Element_getModifier. pres_solve. Qed.

Lemma preserves_createRelationship' dh sn th mn b :
  preserves view R (createRelationship dh sn th mn b).
Proof.
  unfold createRelationship. apply preserves_bind; [done|apply preserves_wire'|].
  intros [d m]; destruct b; [apply preserves_inherit' | by apply preserves_ret].
Qed.

(** Every public operation, when the view only reads the registries and
    heaps. *)
Hypothesis H_gview : forall s s', gview s = gview s' -> view s = view s'.

Lemma preserves_run_op o : preserves view R (run_op o).
Proof.
  assert (Hsame : forall f : St -> St, (forall s, gview (f s) = gview s) -> preserves view R (modify f)).
  { intros f Hf s. simpl. rewrite (H_gview (f s) s (Hf s)). apply R_refl. }
  destruct o; simpl.
  - unfold addState, statesContainer_add. apply Hsame. intros s. by case_match.
  - unfold addModifier, modifiersContainer_add. apply Hsame. intros s. by case_match.
  - apply preserves_createRelationship'.
  - apply Hsame. reflexivity.
  - apply preserves_trigger_change; [exact R_refl|exact R_trans| |];
      intros; apply Hsame; reflexivity.
  - apply Hsame. reflexivity.
Qed.

Lemma preserves_run_ops os s : R (view s) (view (run_ops os s)).
Proof.
  revert s; induction os as [|o os IH]; intros s; simpl; [apply R_refl|].
  eapply R_trans; [apply preserves_run_op | apply IH].
Qed.

End FrameSetup.

Arguments preserves_run_ops {X} view R.

Ltac gview_tac :=
  intros ? ? Hg; unfold gview in Hg; injection Hg; intros;
  first [ congruence | lazymatch goal with |- ?f _ = ?f _ => unfold f; congruence end ].

(** ** Elements, their hosts and their attachments *)

(** Between two heaps of Elements: no Element disappears, each keeps its
    host, and each key of its maps keeps its instance. *)
Definition el_later (l1 l2 : list Element) : Prop :=
  forall e el, l1 !! e = Some el -> exists el', l2 !! e = Some el' /\ el_host el' = el_host el /\
    (forall k x, js_get k (el_states el) = Some x -> js_get k (el_states el') = Some x) /\
    (forall k m, js_get k (el_modifiers el) = Some m -> js_get k (el_modifiers el') = Some m).

Lemma el_later_refl l : el_later l l.
Proof. intros e el H. exists el. auto. Qed.

Lemma el_later_trans l1 l2 l3 : el_later l1 l2 -> el_later l2 l3 -> el_later l1 l3.
Proof.
  intros H12 H23 e el H. destruct (H12 e el H) as (el2 & H2 & Hh2 & Hs2 & Hm2).
  destruct (H23 e el2 H2) as (el3 & H3 & Hh3 & Hs3 & Hm3).
  exists el3. split; [done|]. split; [congruence|]. split; auto.
Qed.

Lemma resolve_el_later h : preserves el_heap el_later (resolve h).
Proof.
  intros s. resolve_cases s h; [apply el_later_refl|apply el_later_refl|].
  simpl. intros e el He. exists el.
  split; [by apply lookup_app_l_Some|]. auto.
Qed.

Lemma subscribe_gview_el s m x :
  el_heap (snd (Modifier_subscribe m x s)) = el_heap s /\
  handlers (snd (Modifier_subscribe m x s)) = handlers s /\
  elements (snd (Modifier_subscribe m x s)) = elements s.
Proof.
  destruct (subscribe_shape s m x) as [->|(st & _ & [[_ ->]|(mo & _ & ->)])]; done.
Qed.

Lemma ensure_state_el_later d k : preserves el_heap el_later (ensure_state d k).
Proof.
  intros s. destruct (ensure_state_shape s d k) as [->|(el & cb & Hd & Hk & _ & ->)];
    [apply el_later_refl|]. simpl. apply js_lookup_undefined in Hk as [Hk _].
  intros e el' He. destruct (decide (e = d)) as [->|Hne].
  - rewrite Hd in He. injection He as <-.
    eexists. rewrite list_lookup_insert_eq by (eapply lookup_lt_Some; eauto).
    split; [done|]. split; [done|]. split; [|done].
    intros k' x Hx. simpl. rewrite js_get_set.
    destruct (String.eqb_spec k' k) as [->|]; [congruence|done].
  - exists el'. rewrite list_lookup_insert_ne by done. auto.
Qed.

Lemma ensure_modifier_el_later t k : preserves el_heap el_later (ensure_modifier t k).
Proof.
  intros s. destruct (ensure_modifier_shape s t k) as [->|(el & cb & Hd & Hk & _ & ->)];
    [apply el_later_refl|]. simpl. apply js_lookup_undefined in Hk as [Hk _].
  intros e el' He. destruct (decide (e = t)) as [->|Hne].
  - rewrite Hd in He. injection He as <-.
    eexists. rewrite list_lookup_insert_eq by (eapply lookup_lt_Some; eauto).
    split; [done|]. split; [done|]. split; [done|].
    intros k' m Hm. simpl. rewrite js_get_set.
    destruct (String.eqb_spec k' k) as [->|]; [congruence|done].
  - exists el'. rewrite list_lookup_insert_ne by done. auto.
Qed.

Lemma run_ops_el_later os s : el_later (el_heap s) (el_heap (run_ops os s)).
Proof.
  apply (preserves_run_ops el_heap el_later el_later_refl el_later_trans).
  - apply resolve_el_later.
  - apply ensure_state_el_later.
  - apply ensure_modifier_el_later.
  - intros m x s'. rewrite (proj1 (subscribe_gview_el s' m x)). apply el_later_refl.
  - gview_tac.
Qed.

(** The change handlers: the [i]-th one was registered by Element [i], on
    its own host. *)
Definition handlers_ok (v : list (Host * nat) * list Host) : Prop :=
  v.1 = imap (fun i h => (h, i)) v.2.

Definition hview (s : St) := (handlers s, el_host <$> el_heap s).

Lemma hview_el_later s s' :
  handlers s' = handlers s -> length (el_heap s') = length (el_heap s) ->
  el_later (el_heap s) (el_heap s') -> hview s' = hview s.
Proof.
  intros Hh Hl Hlt. unfold hview. rewrite Hh. f_equal.
  apply list_eq. intros i. rewrite !list_lookup_fmap.
  destruct (el_heap s !! i) as [el|] eqn:Hi.
  - destruct (Hlt i el Hi) as (el' & -> & Hh' & _). simpl. by rewrite Hh'.
  - apply lookup_ge_None in Hi. simpl. rewrite lookup_ge_None_2; [done|lia].
Qed.

Lemma resolve_handlers h : preserves hview (fun v1 v2 => handlers_ok v1 -> handlers_ok v2) (resolve h).
Proof.
  intros s. resolve_cases s h; [done|done|].
  unfold hview, handlers_ok; simpl. intros ->.
  rewrite fmap_app, imap_app. simpl. by rewrite length_fmap, Nat.add_0_r.
Qed.

Lemma ensure_state_handlers d k :
  preserves hview (fun v1 v2 => handlers_ok v1 -> handlers_ok v2) (ensure_state d k).
Proof.
  intros s. rewrite (hview_el_later s (snd (ensure_state d k s))); [done| | |apply ensure_state_el_later].
  - destruct (ensure_state_shape s d k) as [->|(el & cb & _ & _ & _ & ->)]; done.
  - destruct (ensure_state_shape s d k) as [->|(el & cb & _ & _ & _ & ->)]; [done|].
    simpl. by rewrite length_insert.
Qed.

Lemma ensure_modifier_handlers t k :
  preserves hview (fun v1 v2 => handlers_ok v1 -> handlers_ok v2) (ensure_modifier t k).
Proof.
  intros s. rewrite (hview_el_later s (snd (ensure_modifier t k s))); [done| | |apply ensure_modifier_el_later].
  - destruct (ensure_modifier_shape s t k) as [->|(el & cb & _ & _ & _ & ->)]; done.
  - destruct (ensure_modifier_shape s t k) as [->|(el & cb & _ & _ & _ & ->)]; [done|].
    simpl. by rewrite length_insert.
Qed.

Lemma run_ops_handlers os s : handlers_ok (hview s) -> handlers_ok (hview (run_ops os s)).
Proof.
  apply (preserves_run_ops hview (fun v1 v2 => handlers_ok v1 -> handlers_ok v2)).
  - auto.
  - auto.
  - apply resolve_handlers.
  - apply ensure_state_handlers.
  - apply ensure_modifier_handlers.
  - intros m x s'. unfold hview. destruct (subscribe_gview_el s' m x) as (-> & -> & _). auto.
  - gview_tac.
Qed.

(** ** State and Modifier instances: owner and callback *)

Definition inst_later (v1 v2 : list State * list Modifier) : Prop :=
  (forall x st, v1.1 !! x = Some st -> exists st', v2.1 !! x = Some st' /\
     st_element st' = st_element st /\ st_callback st' = st_callback st) /\
  (forall m mo, v1.2 !! m = Some mo -> exists mo', v2.2 !! m = Some mo' /\
     md_element mo' = md_element mo /\ md_callback mo' = md_callback mo).

Definition iview (s : St) := (st_heap s, md_heap s).

Lemma inst_later_refl v : inst_later v v.
Proof. split; intros ? ? H; eexists; eauto. Qed.

Lemma inst_later_trans v1 v2 v3 : inst_later v1 v2 -> inst_later v2 v3 -> inst_later v1 v3.
Proof.
  intros [S12 M12] [S23 M23]. split.
  - intros x st H. destruct (S12 x st H) as (st2 & H2 & E2 & C2).
    destruct (S23 x st2 H2) as (st3 & H3 & E3 & C3). exists st3. split; [done|]. split; congruence.
  - intros m mo H. destruct (M12 m mo H) as (mo2 & H2 & E2 & C2).
    destruct (M23 m mo2 H2) as (mo3 & H3 & E3 & C3). exists mo3. split; [done|]. split; congruence.
Qed.

Lemma resolve_inst h : preserves iview inst_later (resolve h).
Proof. intros s. resolve_cases s h; apply inst_later_refl. Qed.

Lemma ensure_state_inst d k : preserves iview inst_later (ensure_state d k).
Proof.
  intros s. destruct (ensure_state_shape s d k) as [->|(el & cb & _ & _ & _ & ->)];
    [apply inst_later_refl|].
  unfold iview, attach_state_st; simpl. split; [|intros m mo H; eexists; eauto].
  intros x st Hx. simpl in *. exists st. split; [|done].
  assert (Hl := lookup_lt_Some _ _ _ Hx).
  rewrite list_lookup_insert_ne by lia. by apply lookup_app_l_Some.
Qed.

Lemma ensure_modifier_inst t k : preserves iview inst_later (ensure_modifier t k).
Proof.
  intros s. destruct (ensure_modifier_shape s t k) as [->|(el & cb & _ & _ & _ & ->)];
    [apply inst_later_refl|].
  unfold iview, attach_modifier_st; simpl. split; [intros x st H; eexists; eauto|].
  intros m mo Hm. simpl in *. exists mo. split; [|done].
  assert (Hl := lookup_lt_Some _ _ _ Hm).
  rewrite list_lookup_insert_ne by lia. by apply lookup_app_l_Some.
Qed.

Lemma subscribe_inst m x : preserves iview inst_later (Modifier_subscribe m x).
Proof.
  intros s. destruct (subscribe_shape s m x) as [->|(st & Hst & [[_ ->]|(mo & Hmo & ->)])];
    [apply inst_later_refl| |]; unfold iview; simpl; split; intros y0 st0 Hy'; simpl in *; revert y0 st0 Hy'.
  - intros y sty Hy. destruct (decide (y = x)) as [->|Hne].
    + rewrite Hst in Hy. injection Hy as <-. eexists. by rewrite list_lookup_insert_eq by (eapply lookup_lt_Some; eauto).
    + exists sty. by rewrite list_lookup_insert_ne by done.
  - intros m' mo' H. eexists; eauto.
  - intros y sty Hy. destruct (decide (y = x)) as [->|Hne].
    + rewrite Hst in Hy. injection Hy as <-. eexists. by rewrite list_lookup_insert_eq by (eapply lookup_lt_Some; eauto).
    + exists sty. by rewrite list_lookup_insert_ne by done.
  - intros m' mo' Hm'. destruct (decide (m' = m)) as [->|Hne].
    + rewrite Hmo in Hm'. injection Hm' as <-. eexists. by rewrite list_lookup_insert_eq by (eapply lookup_lt_Some; eauto).
    + exists mo'. by rewrite list_lookup_insert_ne by done.
Qed.

Lemma run_ops_inst os s : inst_later (iview s) (iview (run_ops os s)).
Proof.
  apply (preserves_run_ops iview inst_later inst_later_refl inst_later_trans).
  - apply resolve_inst.
  - apply ensure_state_inst.
  - apply ensure_modifier_inst.
  - apply subscribe_inst.
  - gview_tac.
Qed.

(** ** The Element Registry: one key per Element *)





(** ** Subscriptions: mirrored, and only by attached Modifiers *)

Definition subs_ok (s : St) : Prop :=
  (forall x m, In m (state_subs s x) -> exists e k, modifier_at s e k = Some m) /\
  (forall x m, count_occ Nat.eq_dec (state_subs s x) m = count_occ Nat.eq_dec (mod_states s m) x).

Lemma subs_ok_heaps s s' :
  el_heap s' = el_heap s -> st_heap s' = st_heap s -> md_heap s' = md_heap s ->
  subs_ok s -> subs_ok s'.
Proof. intros He Hs Hm. unfold subs_ok, state_subs, mod_states, modifier_at. by rewrite He, Hs, Hm. Qed.

Lemma modifier_at_later s s' e k m :
  el_later (el_heap s) (el_heap s') -> modifier_at s e k = Some m -> modifier_at s' e k = Some m.
Proof.
  intros Hl. unfold modifier_at. destruct (el_heap s !! e) as [el|] eqn:He; simpl; [|discriminate].
  destruct (Hl e el He) as (el' & -> & _ & _ & Hm). simpl. apply Hm.
Qed.

Lemma state_at_later s s' e k x :
  el_later (el_heap s) (el_heap s') -> state_at s e k = Some x -> state_at s' e k = Some x.
Proof.
  intros Hl. unfold state_at. destruct (el_heap s !! e) as [el|] eqn:He; simpl; [|discriminate].
  destruct (Hl e el He) as (el' & -> & _ & Hs & _). simpl. apply Hs.
Qed.

Lemma subs_ok_later s s' :
  el_later (el_heap s) (el_heap s') ->
  (forall x, state_subs s' x = state_subs s x) -> (forall m, mod_states s' m = mod_states s m) ->
  subs_ok s -> subs_ok s'.
Proof.
  intros Hl Hs Hm [S1 S2]. split.
  - intros x m Hin. rewrite Hs in Hin. destruct (S1 x m Hin) as (e & k & Hk).
    exists e, k. by apply (modifier_at_later s).
  - intros x m. rewrite Hs, Hm. apply S2.
Qed.

Lemma subs_ok_resolve s h : subs_ok s -> subs_ok (snd (resolve h s)).
Proof.
  apply subs_ok_later; [apply resolve_el_later| |];
    intros; resolve_cases s h; reflexivity.
Qed.

(** A fresh instance has no subscription: the lists of the old ones stay. *)
Lemma ensure_state_subs s d k x : state_subs (snd (ensure_state d k s)) x = state_subs s x.
Proof.
  destruct (ensure_state_shape s d k) as [->|(el & cb & _ & _ & _ & ->)]; [done|].
  unfold state_subs, attach_state_st; simpl.
  destruct (decide (x = length (st_heap s))) as [->|Hne].
  - rewrite list_lookup_insert_eq by (rewrite length_app; simpl; lia). simpl.
    by rewrite lookup_ge_None_2 by lia.
  - rewrite list_lookup_insert_ne by done. destruct (decide (x < length (st_heap s))).
    + by rewrite lookup_app_l by done.
    + rewrite lookup_ge_None_2 by (rewrite length_app; simpl; lia).
      by rewrite lookup_ge_None_2 by lia.
Qed.

Lemma ensure_modifier_states s t k m : mod_states (snd (ensure_modifier t k s)) m = mod_states s m.
Proof.
  destruct (ensure_modifier_shape s t k) as [->|(el & cb & _ & _ & _ & ->)]; [done|].
  unfold mod_states, attach_modifier_st; simpl.
  destruct (decide (m = length (md_heap s))) as [->|Hne].
  - rewrite list_lookup_insert_eq by (rewrite length_app; simpl; lia). simpl.
    by rewrite lookup_ge_None_2 by lia.
  - rewrite list_lookup_insert_ne by done. destruct (decide (m < length (md_heap s))).
    + by rewrite lookup_app_l by done.
    + rewrite lookup_ge_None_2 by (rewrite length_app; simpl; lia).
      by rewrite lookup_ge_None_2 by lia.
Qed.

Lemma subs_ok_ensure_state s d k : subs_ok s -> subs_ok (snd (ensure_state d k s)).
Proof.
  apply subs_ok_later; [apply ensure_state_el_later|apply ensure_state_subs|].
  intros m. destruct (ensure_state_shape s d k) as [->|(el & cb & _ & _ & _ & ->)]; done.
Qed.

Lemma subs_ok_ensure_modifier s t k : subs_ok s -> subs_ok (snd (ensure_modifier t k s)).
Proof.
  apply subs_ok_later; [apply ensure_modifier_el_later| |apply ensure_modifier_states].
  intros x. destruct (ensure_modifier_shape s t k) as [->|(el & cb & _ & _ & _ & ->)]; done.
Qed.

Lemma subs_ok_subscribe s m x :
  wf s -> subs_ok s -> x < length (st_heap s) -> m < length (md_heap s) ->
  (exists e k, modifier_at s e k = Some m) ->
  exists s', Modifier_subscribe m x s = (Ok tt, s') /\ wf s' /\ subs_ok s' /\
    el_heap s' = el_heap s /\ length (st_heap s') = length (st_heap s) /\
    length (md_heap s') = length (md_heap s).
Proof.
  intros Hwf [S1 S2] Hx Hm Hatt.
  destruct (subscribe_ok s m x Hwf Hx Hm)
    as (s' & E & Hwf' & Hel & _ & _ & _ & Hst & Hmd & Hms & Hms' & Hss).
  exists s'. do 2 (split; [done|]). split; [|done]. split.
  - intros y m' Hin. rewrite Hss in Hin. apply in_app_iff in Hin as [Hin|Hin].
    + destruct (S1 y m' Hin) as (e & k & Hk). exists e, k. unfold modifier_at in *. by rewrite Hel.
    + destruct (decide (y = x)) as [Hyx|Hyx]; [|done]. destruct Hin as [<-|[]].
      destruct Hatt as (e & k & Hk). exists e, k. unfold modifier_at in *. by rewrite Hel.
  - intros y m'. rewrite Hss, count_occ_app.
    destruct (decide (m' = m)) as [->|Hne].
    + rewrite Hms, count_occ_app, S2. f_equal. simpl.
      destruct (decide (y = x)) as [->|Hyx]; simpl.
      * destruct (Nat.eq_dec m m); [|done]. by destruct (Nat.eq_dec x x).
      * by destruct (Nat.eq_dec x y).
    + rewrite (Hms' m' Hne), S2. destruct (decide (y = x)); simpl; [|lia].
      destruct (Nat.eq_dec m m'); [congruence|lia].
Qed.

Lemma subs_ok_subscribe_all s m (L : list nat) :
  wf s -> subs_ok s -> (forall x, In x L -> x < length (st_heap s)) -> m < length (md_heap s) ->
  (exists e k, modifier_at s e k = Some m) ->
  exists s', for_each L (Modifier_subscribe m) s = (Ok tt, s') /\ wf s' /\ subs_ok s'.
Proof.
  revert s; induction L as [|x L IH]; intros s Hwf Hs HL Hm Hatt; simpl; [by exists s|].
  destruct (subs_ok_subscribe s m x Hwf Hs (HL x (or_introl eq_refl)) Hm Hatt)
    as (s1 & E1 & Hwf1 & Hs1 & Hel1 & Hst1 & Hmd1).
  rewrite (bind_ok _ _ _ _ _ E1). apply IH; try done.
  - intros y Hy. rewrite Hst1. apply HL. by right.
  - by rewrite Hmd1.
  - destruct Hatt as (e & k & Hk). exists e, k. unfold modifier_at in *. by rewrite Hel1.
Qed.

Lemma subs_ok_inherit s d m mn :
  wf s -> subs_ok s -> d < length (el_heap s) -> m < length (md_heap s) ->
  (exists e k, modifier_at s e k = Some m) ->
  subs_ok (snd (createRelationship_inherit d m mn s)).
Proof.
  intros Hwf Hs Hd Hm Hatt.
  destruct (lookup_lt_is_Some_2 _ _ Hd) as [eld Held].
  unfold createRelationship_inherit. rewrite (bind_ok _ _ _ _ _ (getModifier_eq _ _ _ _ Held)).
  unfold js_lookup.
  destruct (js_get mn (el_modifiers eld)) as [m'|] eqn:Hm'; [|by destruct (object_member mn)].
  destruct (modifier_at_valid s d mn m' Hwf) as (mo' & Hmo' & _).
  { by rewrite (modifier_at_eq _ _ _ _ Held). }
  assert (Hdr : deref_modifier m' s = (Ok mo', s)) by (unfold deref_modifier; by rewrite Hmo').
  rewrite (bind_ok _ _ _ _ _ Hdr).
  destruct (subs_ok_subscribe_all s m (md_states mo') Hwf Hs) as (s' & -> & _ & Hs'); try done.
  destruct Hwf as (_ & _ & _ & W5 & _). eauto.
Qed.

Lemma subs_ok_wire s dh sn th mn :
  wf s -> subs_ok s -> subs_ok (snd (createRelationship_wire dh sn th mn s)).
Proof.
  intros Hwf Hs0. unfold createRelationship_wire.
  destruct (resolve_spec dh s Hwf)
    as [(_ & E1) | (d & s1 & E1 & Hwf1 & _ & _ & _ & _ & _ & Hd1 & _ & _ & _ & _)].
  { by rewrite (bind_exc _ _ _ _ _ E1). }
  assert (Hs1 : subs_ok s1) by (pose proof (subs_ok_resolve s dh Hs0) as H; by rewrite E1 in H).
  rewrite (bind_ok _ _ _ _ _ E1).
  destruct (lookup_lt_is_Some_2 _ _ Hd1) as [eld Held].
  destruct (ensure_state_spec s1 d sn eld Hwf1 Held)
    as [(_ & _ & E2) | (s2 & E2 & Hwf2 & _ & _ & _ & _ & Hl2 & _ & _ & _)].
  { by rewrite (bind_exc _ _ _ _ _ E2). }
  assert (Hs2 : subs_ok s2) by (pose proof (subs_ok_ensure_state s1 d sn Hs1) as H; by rewrite E2 in H).
  rewrite (bind_ok _ _ _ _ _ E2).
  destruct (resolve_spec th s2 Hwf2)
    as [(_ & E3) | (t & s3 & E3 & Hwf3 & _ & _ & _ & _ & _ & Ht3 & Hpre3 & _ & _ & _)].
  { by rewrite (bind_exc _ _ _ _ _ E3). }
  assert (Hs3 : subs_ok s3) by (pose proof (subs_ok_resolve s2 th Hs2) as H; by rewrite E3 in H).
  rewrite (bind_ok _ _ _ _ _ E3).
  destruct (lookup_lt_is_Some_2 _ _ Ht3) as [elt Helt].
  destruct (ensure_modifier_spec s3 t mn elt Hwf3 Helt)
    as [(_ & _ & E4) | (s4 & E4 & Hwf4 & _ & _ & _ & _ & Hl4 & _ & _ & _)].
  { by rewrite (bind_exc _ _ _ _ _ E4). }
  assert (Hs4 : subs_ok s4) by (pose proof (subs_ok_ensure_modifier s3 t mn Hs3) as H; by rewrite E4 in H).
  rewrite (bind_ok _ _ _ _ _ E4).
  assert (Hd2 : is_Some (el_heap s2 !! d)) by (apply lookup_lt_is_Some_2; lia).
  assert (Hd4 : d < length (el_heap s4)).
  { rewrite Hl4. apply lookup_lt_is_Some_1. destruct Hd2 as [? Hx]. eexists. apply Hpre3, Hx. }
  destruct (lookup_lt_is_Some_2 _ _ Hd4) as [eld4 Held4].
  rewrite (bind_ok _ _ _ _ _ (getState_eq _ _ _ _ Held4)).
  assert (Ht4 : t < length (el_heap s4)) by (rewrite Hl4; done).
  destruct (lookup_lt_is_Some_2 _ _ Ht4) as [elt4 Helt4].
  rewrite (bind_ok _ _ _ _ _ (getModifier_eq _ _ _ _ Helt4)).
  destruct (js_get mn (el_modifiers elt4)) as [m|] eqn:Hm.
  2:{ unfold js_lookup. rewrite Hm. by destruct (object_member mn). }
  destruct (js_get sn (el_states eld4)) as [x|] eqn:Hx.
  2:{ unfold js_lookup. rewrite Hm, Hx. by destruct (object_member sn). }
  unfold js_lookup. rewrite Hm, Hx.
  destruct (state_at_valid s4 d sn x Hwf4) as (stx & Hstx & _).
  { by rewrite (state_at_eq _ _ _ _ Held4). }
  destruct (modifier_at_valid s4 t mn m Hwf4) as (mom & Hmom & _).
  { by rewrite (modifier_at_eq _ _ _ _ Helt4). }
  destruct (subs_ok_subscribe s4 m x Hwf4 Hs4 (lookup_lt_Some _ _ _ Hstx) (lookup_lt_Some _ _ _ Hmom))
    as (s5 & E5 & _ & Hs5 & _).
  { exists t, mn. by rewrite (modifier_at_eq _ _ _ _ Helt4). }
  by rewrite (bind_ok _ _ _ _ _ E5).
Qed.

Lemma subs_ok_createRelationship s dh sn th mn b :
  wf s -> subs_ok s -> subs_ok (snd (createRelationship dh sn th mn b s)).
Proof.
  intros Hwf Hs. unfold createRelationship.
  pose proof (wire_spec s dh sn th mn Hwf) as Hw.
  pose proof (subs_ok_wire s dh sn th mn Hwf Hs) as Hsw.
  destruct (createRelationship_wire dh sn th mn s) as [[[d m]|e] s1] eqn:E; unfold bind; rewrite E;
    destruct Hw as (Hwf1 & _ & _ & _ & Hok); [|done].
  destruct (Hok d m eq_refl) as (_ & (t & _ & Ht) & Hd & Hm & _).
  destruct b; simpl; [|done].
  apply subs_ok_inherit; eauto.
Qed.

Lemma subs_ok_run_op o s : wf s -> subs_ok s -> subs_ok (snd (run_op o s)).
Proof.
  intros Hwf Hs. destruct o; simpl; try (revert Hs; apply subs_ok_heaps; reflexivity).
  - unfold addState, statesContainer_add, modify. simpl. revert Hs. apply subs_ok_heaps; by case_match.
  - unfold addModifier, modifiersContainer_add, modify. simpl. revert Hs. apply subs_ok_heaps; by case_match.
  - by apply subs_ok_createRelationship.
  - pose proof (trigger_change_wview fuel h s) as Hv. revert Hs. apply subs_ok_heaps.
    + symmetry. by apply wview_el_heap.
    + symmetry. by apply wview_st_heap.
    + symmetry. by apply wview_md_heap.
Qed.

Lemma subs_ok_run_ops os s : wf s -> subs_ok s -> subs_ok (run_ops os s).
Proof.
  revert s; induction os as [|o os IH]; intros s Hwf Hs; simpl; [done|].
  apply IH; [by apply wf_run_op | by apply subs_ok_run_op].
Qed.

Lemma reachable_subs_ok s : reachable s -> subs_ok s.
Proof.
  intros (os & w & ->). apply subs_ok_run_ops; [apply wf_init|].
  split; intros x m; unfold state_subs, mod_states; simpl; [intros []|done].
Qed.

Lemma reachable_handlers s : reachable s -> handlers s = imap (fun i el => (el_host el, i)) (el_heap s).
Proof.
  intros (os & w & ->). pose proof (run_ops_handlers os (init w) eq_refl) as H.
  unfold handlers_ok, hview in H. simpl in H. rewrite H. by rewrite imap_fmap.
Qed.

(** ** Callbacks of the instances *)

Lemma callbacks_ok_heaps s s' :
  state_proto s' = state_proto s -> modifier_proto s' = modifier_proto s ->
  st_heap s' = st_heap s -> md_heap s' = md_heap s -> callbacks_ok s -> callbacks_ok s'.
Proof. intros H1 H2 H3 H4. unfold callbacks_ok. by rewrite H1, H2, H3, H4. Qed.

(** A State made for a name whose lookup on the Element was [undefined]
    gets a callback, once no State template sits under "__proto__". *)
Lemma state_lookup_fresh s sn el cbo :
  js_lookup sn (el_states el) = JUndefined -> state_lookup s sn = Some cbo ->
  state_proto s = None -> is_Some cbo.
Proof.
  intros [_ Hob]%js_lookup_undefined. unfold state_lookup, template_lookup, inherited_template.
  intros H Hp. rewrite Hp, Hob in H. destruct (state_templates s !! sn); [|discriminate].
  injection H as <-. eauto.
Qed.

Lemma modifier_lookup_fresh s mn el cbo :
  js_lookup mn (el_modifiers el) = JUndefined -> modifier_lookup s mn = Some cbo ->
  modifier_proto s = None -> is_Some cbo.
Proof.
  intros [_ Hob]%js_lookup_undefined. unfold modifier_lookup, template_lookup, inherited_template.
  intros H Hp. rewrite Hp, Hob in H. destruct (modifier_templates s !! mn); [|discriminate].
  injection H as <-. eauto.
Qed.

Definition cb_pres (s1 s2 : St) : Prop := callbacks_ok s1 -> callbacks_ok s2.

Lemma callbacks_resolve h : preserves id cb_pres (resolve h).
Proof.
  intros s. unfold id, cb_pres. apply callbacks_ok_heaps; resolve_cases s h; done.
Qed.

Lemma callbacks_ensure_state d k : preserves id cb_pres (ensure_state d k).
Proof.
  intros s. unfold id, cb_pres.
  destruct (ensure_state_shape s d k) as [->|(el & cbo & Hd & Hk & Hl & ->)]; [done|].
  intros [C1 C2]. split; [|exact C2]. simpl. intros Hp x st Hx.
  apply list_lookup_insert_Some in Hx as [(<- & <- & _)|(_ & Hx)].
  - simpl. exact (state_lookup_fresh s k el cbo Hk Hl Hp).
  - apply lookup_app_Some in Hx as [Hx|(_ & Hx)]; [by eapply C1|].
    apply list_lookup_singleton_Some in Hx as [_ <-]. exact (state_lookup_fresh s k el cbo Hk Hl Hp).
Qed.

Lemma callbacks_ensure_modifier t k : preserves id cb_pres (ensure_modifier t k).
Proof.
  intros s. unfold id, cb_pres.
  destruct (ensure_modifier_shape s t k) as [->|(el & cbo & Hd & Hk & Hl & ->)]; [done|].
  intros [C1 C2]. split; [exact C1|]. simpl. intros Hp m mo Hm.
  apply list_lookup_insert_Some in Hm as [(<- & <- & _)|(_ & Hm)].
  - simpl. exact (modifier_lookup_fresh s k el cbo Hk Hl Hp).
  - apply lookup_app_Some in Hm as [Hm|(_ & Hm)]; [by eapply C2|].
    apply list_lookup_singleton_Some in Hm as [_ <-]. exact (modifier_lookup_fresh s k el cbo Hk Hl Hp).
Qed.

Lemma callbacks_subscribe m x : preserves id cb_pres (Modifier_subscribe m x).
Proof.
  intros s. unfold id, cb_pres.
  destruct (subscribe_shape s m x) as [->|(st & Hst & [[_ ->]|(mo & Hmo & ->)])]; [done| |];
    intros [C1 C2]; split; simpl.
  - intros Hp y sty Hy. apply list_lookup_insert_Some in Hy as [(<- & <- & _)|(_ & Hy)]; [|by eapply C1].
    simpl. by eapply C1.
  - exact C2.
  - intros Hp y sty Hy. apply list_lookup_insert_Some in Hy as [(<- & <- & _)|(_ & Hy)]; [|by eapply C1].
    simpl. by eapply C1.
  - intros Hp m' mo' Hm'. apply list_lookup_insert_Some in Hm' as [(<- & <- & _)|(_ & Hm')]; [|by eapply C2].
    simpl. by eapply C2.
Qed.

Lemma callbacks_ok_run_op o s : callbacks_ok s -> callbacks_ok (snd (run_op o s)).
Proof.
  destruct o; simpl.
  - unfold addState, statesContainer_add, modify. simpl. intros [C1 C2].
    destruct (String.eqb name "__proto__"); split; simpl; try done.
  - unfold addModifier, modifiersContainer_add, modify. simpl. intros [C1 C2].
    destruct (String.eqb name "__proto__"); split; simpl; try done.
  - apply (preserves_createRelationship' St id cb_pres); unfold cb_pres; auto.
    + apply callbacks_resolve.
    + apply callbacks_ensure_state.
    + apply callbacks_ensure_modifier.
    + apply callbacks_subscribe.
  - done.
  - pose proof (trigger_change_wview fuel h s) as Hv. apply callbacks_ok_heaps;
      unfold wview in Hv; injection Hv; intros; congruence.
  - done.
Qed.

Lemma callbacks_ok_run_ops os s : callbacks_ok s -> callbacks_ok (run_ops os s).
Proof.
  revert s; induction os as [|o os IH]; intros s H; simpl; [done|].
  apply IH, callbacks_ok_run_op, H.
Qed.

Lemma reachable_callbacks s : reachable s -> callbacks_ok s.
Proof.
  intros (os & w & ->). apply callbacks_ok_run_ops.
  split; intros _ ? ? H; simpl in H; by rewrite lookup_nil in H.
Qed.

Lemma reachable_all_callbacks s :
  reachable s -> state_proto s = None -> modifier_proto s = None -> all_callbacks s.
Proof. intros Hr H1 H2. destruct (reachable_callbacks s Hr) as [C1 C2]. split; [exact (C1 H1)|exact (C2 H2)]. Qed.

Lemma all_callbacks_set s e el :
  all_callbacks s -> wf s -> el_heap s !! e = Some el -> callbacks_set s el = true.
Proof.
  intros [C1 _] (_ & W2 & _) He. unfold callbacks_set. apply forallb_forall.
  intros [k x] Hin. destruct (W2 e el He k x Hin) as (st & Hst & _).
  unfold has_callback. simpl. rewrite Hst. destruct (C1 x st Hst) as [cb ->]. done.
Qed.

Lemma all_callbacks_wview s s' : wview s = wview s' -> all_callbacks s -> all_callbacks s'.
Proof.
  intros Hv. unfold all_callbacks. by rewrite <- (wview_st_heap _ _ Hv), <- (wview_md_heap _ _ Hv).
Qed.

(** ** Change events: what a cascade can end in *)

(** The Elements whose change handler one of [e]'s States may fire:
    the owners of the Modifiers subscribed to a State attached to [e]. *)
Definition deps (s : St) (e : nat) : list nat :=
  match el_heap s !! e with
  | Some el =>
      flat_map (fun p =>
        flat_map (fun m =>
          match md_heap s !! m with
          | Some mo => match md_element mo with Some e' => [e'] | None => [] end
          | None => []
          end) (state_subs s (snd p))) (el_states el)
  | None => []
  end.

Lemma for_each_res {A} (Q : res unit -> Prop) (l : list A) (g : A -> M unit) s0 :
  Q (Ok tt) ->
  (forall a s, In a l -> wview s = wview s0 -> wview (snd (g a s)) = wview s0 /\ Q (fst (g a s))) ->
  forall s, wview s = wview s0 -> wview (snd (for_each l g s)) = wview s0 /\ Q (fst (for_each l g s)).
Proof.
  intros HQ. induction l as [|a l IH]; intros Hg s Hs; cbn [for_each]; [by unfold ret|].
  destruct (Hg a s (or_introl eq_refl) Hs) as [Hv HQa].
  unfold bind. destruct (g a s) as [[[]|e] s1] eqn:E; simpl in Hv, HQa |- *.
  - apply IH; [intros; apply Hg; [right|]; done | done].
  - done.
Qed.

(** One level of the cascade: an Element's active States publish, each
    subscriber runs and cascades from its own Element. *)
Lemma cascade_step (Q : res unit -> Prop) f e s0 s :
  Q (Ok tt) -> wf s0 -> subs_ok s0 -> all_callbacks s0 -> is_Some (el_heap s0 !! e) ->
  wview s = wview s0 ->
  (forall e' s', In e' (deps s0 e) -> is_Some (el_heap s0 !! e') -> wview s' = wview s0 ->
     wview (snd (modifyDependents f e' s')) = wview s0 /\ Q (fst (modifyDependents f e' s'))) ->
  wview (snd (modifyDependents (S f) e s)) = wview s0 /\ Q (fst (modifyDependents (S f) e s)).
Proof.
  intros HQ Hwf Hsub Hac [el He] Hv IH.
  assert (Hwfs : wf s) by (apply (wf_wview s0 s); [by symmetry|done]).
  assert (Hacs : all_callbacks s) by (apply (all_callbacks_wview s0 s); [by symmetry|done]).
  assert (He' : el_heap s !! e = Some el) by (by rewrite (wview_el_heap _ _ Hv)).
  rewrite (modifyDependents_eq f s e el Hwfs He' (all_callbacks_set s e el Hacs Hwfs He')).
  apply (for_each_res Q _ _ s0 HQ); [|done].
  intros [k x] s1 Hin Hv1. simpl.
  unfold active_states in Hin. apply List.filter_In in Hin as [Hin _].
  apply (proj1 (In_forin_order _ _)) in Hin.
  pose proof Hwf as (_ & W2 & _). destruct (W2 e el He k x Hin) as (st & Hst0 & _).
  assert (Hst1 : st_heap s1 !! x = Some st) by (by rewrite (wview_st_heap _ _ Hv1)).
  unfold State_publish. rewrite (publish_eq _ _ _ _ Hst1).
  apply (for_each_res Q _ _ s0 HQ); [|unfold wview in *; simpl; exact Hv1].
  intros m s2 Hm Hv2.
  assert (Hms : In m (state_subs s0 x)) by (unfold state_subs; by rewrite Hst0).
  destruct (proj1 Hsub x m Hms) as (e2 & k2 & Hk2).
  destruct (modifier_at_valid s0 e2 k2 m Hwf Hk2) as (mo & Hmo & Hme).
  destruct (proj2 Hac m mo Hmo) as [cb Hcb].
  assert (He2 : is_Some (el_heap s0 !! e2)).
  { unfold modifier_at in Hk2. destruct (el_heap s0 !! e2); [done|discriminate]. }
  destruct He2 as [el2 Hel2].
  assert (Hmo2 : md_heap s2 !! m = Some mo) by (by rewrite (wview_md_heap _ _ Hv2)).
  assert (Hel2' : el_heap s2 !! e2 = Some el2) by (by rewrite (wview_el_heap _ _ Hv2)).
  rewrite (execute_eq _ s2 m mo e2 el2 cb Hmo2 Hme Hel2' Hcb).
  apply IH; [| by eexists | unfold wview in *; simpl; exact Hv2].
  unfold deps. rewrite He. apply in_flat_map. exists (k, x). split; [done|].
  apply in_flat_map. exists m. split; [done|]. simpl. rewrite Hmo, Hme. by left.
Qed.

Lemma modifyDependents_res s0 :
  wf s0 -> subs_ok s0 -> all_callbacks s0 ->
  forall f e s, is_Some (el_heap s0 !! e) -> wview s = wview s0 ->
  wview (snd (modifyDependents f e s)) = wview s0 /\
  (fst (modifyDependents f e s) = Ok tt \/ fst (modifyDependents f e s) = Exc OutOfFuel).
Proof.
  intros Hwf Hsub Hac f. induction f as [|f IH]; intros e s He Hv.
  - simpl. unfold throw. by split; [|right].
  - apply (cascade_step (fun r => r = Ok tt \/ r = Exc OutOfFuel)); [by left|done..|].
    intros e' s' _ He' Hv'. by apply IH.
Qed.

Lemma modifyDependents_ranked s0 (rank : nat -> nat) :
  wf s0 -> subs_ok s0 -> all_callbacks s0 -> (forall e e', In e' (deps s0 e) -> rank e' < rank e) ->
  forall f e s, is_Some (el_heap s0 !! e) -> rank e < f -> wview s = wview s0 ->
  wview (snd (modifyDependents f e s)) = wview s0 /\ fst (modifyDependents f e s) = Ok tt.
Proof.
  intros Hwf Hsub Hac Hrank f. induction f as [|f IH]; intros e s He Hf Hv; [lia|].
  apply (cascade_step (fun r => r = Ok tt)); [done..|].
  intros e' s' Hd He' Hv'. apply IH; [done| |done].
  pose proof (Hrank e e' Hd). lia.
Qed.

Lemma handler_valid s hh i :
  reachable s -> In (hh, i) (handlers s) -> exists el, el_heap s !! i = Some el /\ el_host el = hh.
Proof.
  intros Hr Hin. rewrite (reachable_handlers s Hr) in Hin.
  apply list_elem_of_In, list_elem_of_lookup in Hin as [j Hj].
  rewrite list_lookup_imap in Hj. destruct (el_heap s !! j) as [el|] eqn:E; simpl in Hj; [|done].
  injection Hj as <- <-. eauto.
Qed.

Lemma trigger_change_for_each fuel h s :
  trigger_change fuel h s =
    for_each (filter (fun p => Nat.eqb (fst p) h) (handlers s)) (fun p => modifyDependents fuel (snd p)) s.
Proof. reflexivity. Qed.

(** ** When createRelationship goes through *)

Lemma templates_eq s s' :
  templates s' = templates s ->
  state_templates s' = state_templates s /\ modifier_templates s' = modifier_templates s.
Proof. unfold templates. intros [= H1 _ H3 _]. by split. Qed.

(** Both names are own properties of their registry and not names of
    [Object.prototype], and no Element sits under "hasOwnProperty" (nor
    will after the dependency's resolution). *)
Lemma wire_ok s dh sn th mn :
  wf s -> is_Some (state_templates s !! sn) -> is_Some (modifier_templates s !! mn) ->
  object_member sn = false -> object_member mn = false ->
  elements s !! "hasOwnProperty" = None -> getElementKey s dh <> "hasOwnProperty" ->
  exists d m s', createRelationship_wire dh sn th mn s = (Ok (d, m), s').
Proof.
  intros Hwf [cs Hsn] [cm Hmn] Hobs Hobm Hp Hkd. unfold createRelationship_wire.
  destruct (resolve_spec dh s Hwf)
    as [([? Hx] & _) | (d & s1 & E1 & Hwf1 & _ & _ & Hoth1 & _ & _ & Hd1 & _ & _ & _ & Ht1)];
    [by rewrite Hp in Hx|].
  rewrite (bind_ok _ _ _ _ _ E1).
  destruct (templates_eq _ _ Ht1) as [Hst1 Hmt1].
  destruct (lookup_lt_is_Some_2 _ _ Hd1) as [eld Held].
  destruct (ensure_state_spec s1 d sn eld Hwf1 Held)
    as [(Hn & _ & _) | (s2 & E2 & Hwf2 & Hsa2 & Hes2 & _ & Ht2 & Hl2 & _ & _ & _)].
  { unfold state_lookup, template_lookup in Hn. rewrite Hst1, Hsn in Hn. discriminate. }
  destruct Hsa2 as [Hsa2 | (Hob & _)]; [|congruence].
  rewrite (bind_ok _ _ _ _ _ E2).
  destruct (templates_eq _ _ Ht2) as [_ Hmt2].
  assert (Hp2 : elements s2 !! "hasOwnProperty" = None).
  { rewrite Hes2, Hoth1; [exact Hp|by apply not_eq_sym]. }
  destruct (resolve_spec th s2 Hwf2)
    as [([? Hx] & _) | (t & s3 & E3 & Hwf3 & _ & _ & _ & _ & _ & Ht3 & Hpre3 & _ & _ & Ht3')];
    [by rewrite Hp2 in Hx|].
  rewrite (bind_ok _ _ _ _ _ E3).
  destruct (templates_eq _ _ Ht3') as [_ Hmt3].
  destruct (lookup_lt_is_Some_2 _ _ Ht3) as [elt Helt].
  destruct (ensure_modifier_spec s3 t mn elt Hwf3 Helt)
    as [(Hn & _ & _) | (s4 & E4 & Hwf4 & Hma4 & _ & _ & _ & Hl4 & _ & Hsa4 & _)].
  { unfold modifier_lookup, template_lookup in Hn. rewrite Hmt3, Hmt2, Hmt1, Hmn in Hn. discriminate. }
  destruct Hma4 as [Hma4 | (Hob & _)]; [|congruence].
  rewrite (bind_ok _ _ _ _ _ E4).
  assert (Hd2 : is_Some (el_heap s2 !! d)) by (apply lookup_lt_is_Some_2; lia).
  assert (Hd4 : d < length (el_heap s4)).
  { rewrite Hl4. apply lookup_lt_is_Some_1. destruct Hd2 as [? Hx]. eexists. apply Hpre3, Hx. }
  destruct (lookup_lt_is_Some_2 _ _ Hd4) as [eld4 Held4].
  rewrite (bind_ok _ _ _ _ _ (getState_eq _ _ _ _ Held4)).
  assert (Ht4 : t < length (el_heap s4)) by (rewrite Hl4; done).
  destruct (lookup_lt_is_Some_2 _ _ Ht4) as [elt4 Helt4].
  rewrite (bind_ok _ _ _ _ _ (getModifier_eq _ _ _ _ Helt4)).
  assert (Hx : is_Some (js_get sn (el_states eld4))).
  { rewrite <- (state_at_eq _ _ _ _ Held4), Hsa4.
    rewrite (state_at_keep s2 s3); [done|done|done]. }
  assert (Hm : is_Some (js_get mn (el_modifiers elt4))).
  { by rewrite <- (modifier_at_eq _ _ _ _ Helt4). }
  destruct Hx as [x Hx], Hm as [m Hm]. unfold js_lookup. rewrite Hx, Hm.
  destruct (state_at_valid s4 d sn x Hwf4) as (stx & Hstx & _).
  { by rewrite (state_at_eq _ _ _ _ Held4). }
  destruct (modifier_at_valid s4 t mn m Hwf4) as (mom & Hmom & _).
  { by rewrite (modifier_at_eq _ _ _ _ Helt4). }
  destruct (subscribe_ok s4 m x Hwf4 (lookup_lt_Some _ _ _ Hstx) (lookup_lt_Some _ _ _ Hmom))
    as (s5 & E5 & _).
  rewrite (bind_ok _ _ _ _ _ E5). by exists d, m, s5.
Qed.

Lemma createRelationship_total s dh sn th mn b :
  wf s -> is_Some (state_templates s !! sn) -> is_Some (modifier_templates s !! mn) ->
  object_member sn = false -> object_member mn = false ->
  elements s !! "hasOwnProperty" = None -> getElementKey s dh <> "hasOwnProperty" ->
  fst (createRelationship dh sn th mn b s) = Ok tt.
Proof.
  intros Hwf Hsn Hmn Hs Hm Hp Hk. unfold createRelationship.
  destruct (wire_ok s dh sn th mn Hwf Hsn Hmn Hs Hm Hp Hk) as (d & m & s1 & E).
  pose proof (wire_spec s dh sn th mn Hwf) as Hw. rewrite E in Hw.
  destruct Hw as (Hwf1 & _ & _ & _ & Hok). destruct (Hok d m eq_refl) as (_ & _ & Hd & Hm' & _).
  rewrite (bind_ok _ _ _ _ _ E). destruct b; simpl; [|done].
  by destruct (inherit_spec s1 d m mn Hwf1 Hd Hm') as (s' & -> & _).
Qed.

(** ** Which handlers a change event runs *)

(** The Elements of host [h], in the order they were created. *)
Definition host_elements (s : St) (h : Host) : list nat :=
  List.filter (fun i => match el_heap s !! i with Some el => Nat.eqb (el_host el) h | None => false end)
    (seq 0 (length (el_heap s))).

Lemma for_each_map {A B} (f : A -> B) (l : list A) (g : B -> M unit) :
  for_each (map f l) g = for_each l (fun a => g (f a)).
Proof. induction l as [|a l IH]; simpl; [done|by rewrite IH]. Qed.

Lemma handler_targets h (l : list Element) :
  map snd (filter (fun p => Nat.eqb (fst p) h) (imap (fun i el => (el_host el, i)) l)) =
  List.filter (fun i => match l !! i with Some el => Nat.eqb (el_host el) h | None => false end)
    (seq 0 (length l)).
Proof.
  induction l as [|el l IH] using rev_ind; [done|].
  rewrite imap_app, filter_app, map_app, length_app, seq_app, List.filter_app. simpl.
  f_equal.
  - etransitivity; [apply IH|]. apply List.filter_ext_in. intros i Hi. apply in_seq in Hi.
    by rewrite lookup_app_l by lia.
  - rewrite lookup_app_r, Nat.sub_diag by lia. simpl. rewrite Nat.add_0_r.
    rewrite filter_cons, filter_nil.
    cbn [fst]. destruct (Nat.eqb (el_host el) h) eqn:E; case_decide as Hd; simpl in *; tauto.
Qed.

(** Everything a change event leaves alone: templates, key callback,
    registry, Elements, instances and handlers. *)
Definition frame_view (s : St) := (wview s, getElementKey s, handlers s).

Lemma trigger_change_frame fuel h : preserves frame_view eq (trigger_change fuel h).
Proof.
  apply preserves_trigger_change; [done|congruence|intros ev s; done|intros f s; done].
Qed.

Lemma trigger_change_elements fuel h s :
  reachable s -> trigger_change fuel h s = for_each (host_elements s h) (modifyDependents fuel) s.
Proof.
  intros Hr. rewrite trigger_change_for_each, (reachable_handlers s Hr).
  rewrite <- (for_each_map snd _ (modifyDependents fuel)). unfold host_elements.
  by rewrite handler_targets.
Qed.

(** ** Helpers for the claims *)






(** ** Claims about the Element Registry *)


(** C8: after [setElementKeyCallback f], and as long as it is not called
    again, every resolution computes its key with [f]: with no Element
    stored under "hasOwnProperty", it returns the Element stored under
    [f h], or creates a new one and assigns it to [elements[f h]] (which
    stores nothing when [f h] is "__proto__").  The Elements resolved
    before keep the keys they are stored under. *)
Theorem setElementKeyCallback_spec (s : St) (f : Host -> string) (os : list op) (h : Host) :
  Forall (fun o => forall g, o <> OpSetElementKeyCallback g) os ->
  let s2 := run_ops os (snd (setElementKeyCallback f s)) in
  getElementKey s2 = f /\
  map_ext (elements s) (elements s2) /\
  (elements s2 !! "hasOwnProperty" = None ->
   forall e, elements s2 !! f h = Some e -> resolve h s2 = (Ok e, s2)) /\
  (elements s2 !! "hasOwnProperty" = None -> elements s2 !! f h = None ->
   exists s3, resolve h s2 = (Ok (length (el_heap s2)), s3) /\
              elements s3 = assign_property (f h) (length (el_heap s2)) (elements s2)).
Proof.
  intros Hos s2.
  assert (Hk : getElementKey s2 = f) by (unfold s2; rewrite run_ops_key; done).
  split; [done|]. split; [apply (run_ops_map_ext os (set_getElementKey f s))|]. split.
  - intros Hp e He. apply resolve_found; [exact Hp|]. unfold element_of. by rewrite Hk.
  - intros Hp He. eexists.
    rewrite resolve_new by (first [exact Hp | unfold element_of; by rewrite Hk]).
    split; [reflexivity|]. simpl. by rewrite Hk.
Qed.

(** ** Claims about relationship setup *)

(** C4: with [inheritState] set, [createRelationship] first does what the
    call without it does: it resolves the dependency Element [d] and the
    dependent's Modifier [m] (the values the code names [dependencyElement]
    and [subModifier]) and subscribes [m] to [d]'s State.  Then, if [d]
    carries a Modifier [m'] under the dependent's modifier name, [m] also
    subscribes to every State of [m']'s subscription list, in order (both
    sides' lists grow accordingly, nothing else changes); if it carries
    none, the inheritance step changes nothing and the call ends in the
    state of the ordinary single subscription. *)
Theorem createRelationship_inheritState s dh sn th mn s1 :
  reachable s -> createRelationship dh sn th mn false s = (Ok tt, s1) ->
  exists d t m, createRelationship_wire dh sn th mn s = (Ok (d, m), s1) /\
  (getElementKey s dh <> "__proto__" -> element_of s1 dh = Some d) /\
  (getElementKey s th <> "__proto__" -> element_of s1 th = Some t) /\ modifier_at s1 t mn = Some m /\
  (exists x, state_at s1 d sn = Some x /\ In x (mod_states s1 m) /\ In m (state_subs s1 x)) /\
  match modifier_at s1 d mn with
  | None => createRelationship dh sn th mn true s = (Ok tt, s1)
  | Some m' =>
      exists s2, createRelationship dh sn th mn true s = (Ok tt, s2) /\
        el_heap s2 = el_heap s1 /\ elements s2 = elements s1 /\
        mod_states s2 m = mod_states s1 m ++ mod_states s1 m' /\
        (forall m'', m'' <> m -> mod_states s2 m'' = mod_states s1 m'') /\
        (forall y, state_subs s2 y =
                   state_subs s1 y ++ repeat m (count_occ Nat.eq_dec (mod_states s1 m') y))
  end.
Proof.
  intros Hr H. pose proof (reachable_wf s Hr) as Hwf.
  destruct (createRelationship_ok s dh sn th mn false s1 Hwf H)
    as (d & t & x & m & sw & E & _ & Hwf1 & Hd & Ht & Hx & Hm & Hxm & Hmx & _ & _ & _ & _ & _ & Hsw).
  specialize (Hsw eq_refl). subst sw.
  assert (Hdl : d < length (el_heap s1)).
  { unfold state_at in Hx. destruct (el_heap s1 !! d) eqn:Ed; [eapply lookup_lt_Some; eauto|discriminate]. }
  assert (Hml : m < length (md_heap s1)).
  { destruct (modifier_at_valid _ _ _ _ Hwf1 Hm) as (mo & Hmo & _). eapply lookup_lt_Some; eauto. }
  exists d, t, m. do 4 (split; [done|]). split; [eauto|].
  assert (Etrue : createRelationship dh sn th mn true s = createRelationship_inherit d m mn s1).
  { unfold createRelationship. by rewrite (bind_ok _ _ _ _ _ E). }
  rewrite Etrue.
  destruct (inherit_spec s1 d m mn Hwf1 Hdl Hml)
    as (s2 & E2 & _ & Hel2 & Hes2 & _ & _ & _ & _ & Hms2 & Hms2' & Hss2 & Hnone).
  destruct (modifier_at s1 d mn) as [m'|] eqn:Em'.
  - exists s2. conj_split; assumption.
  - rewrite E2. by rewrite (Hnone eq_refl).
Qed.




(** ** Claims about the object graph *)

(** C10: in every state a sequence of public operations reaches, every
    State instance an Element's attachment map stores under some key has its
    [element] back-reference set to that Element, and likewise for every
    attached Modifier instance; the map holds the instance itself (an arena
    index), the one [setElement] updated. *)
Theorem attached_back_references s :
  reachable s ->
  (forall e k x, state_at s e k = Some x ->
     exists st, st_heap s !! x = Some st /\ st_element st = Some e) /\
  (forall e k m, modifier_at s e k = Some m ->
     exists mo, md_heap s !! m = Some mo /\ md_element mo = Some e).
Proof.
  intros Hr. pose proof (reachable_wf s Hr) as Hwf.
  split; intros e k y Hy; [exact (state_at_valid _ _ _ _ Hwf Hy) | exact (modifier_at_valid _ _ _ _ Hwf Hy)].
Qed.

(** ** Claims about change propagation *)

(** C3 (amended): when every State attached to an Element has a callback
    (so on every page where no template was registered under
    "__proto__"), the fan-out of the Element first evaluates, on the
    current page, the predicate of each attached State, in the order
    [for .. in] visits them (the names that are array indices first, in
    ascending numeric order, then the others in attachment order), and then
    calls [publish] on each State whose predicate held, in that order,
    whether or not any Modifier subscribes to it: a [publish] call records
    itself and executes the State's subscribers in order (none, for a State
    without subscribers).  Inactive States are not published. *)
Theorem modifyDependents_publishes_active s e el f :
  reachable s -> el_heap s !! e = Some el -> callbacks_set s el = true ->
  modifyDependents (S f) e s = for_each (active_states s el) (fun p => State_publish f (snd p)) s /\
  (forall s' x st, st_heap s' !! x = Some st ->
     State_publish f x s' =
       for_each (st_modifiers st) (Modifier_execute f) (set_trace (trace s' ++ [EvPublish x]) s')).
Proof.
  intros Hr He Hcb. split.
  - exact (modifyDependents_eq f s e el (reachable_wf s Hr) He Hcb).
  - intros s' x st Hx. exact (publish_eq _ s' x st Hx).
Qed.



(** ** Further properties of the code *)

(** X1: the Element constructor binds one change handler on its host, and
    elements are only created by resolve: on every reachable page the
    handler list is exactly one (host, Element) pair per Element, in
    creation order. *)
Theorem change_handler_per_element s :
  reachable s -> handlers s = imap (fun i el => (el_host el, i)) (el_heap s).
Proof. apply reachable_handlers. Qed.

(** X2: a change event on host [h] runs modifyDependents, with the full
    depth bound, once for each Element of [h], in creation order. *)
Theorem change_runs_host_elements fuel h s :
  reachable s -> trigger_change fuel h s = for_each (host_elements s h) (modifyDependents fuel) s.
Proof. apply trigger_change_elements. Qed.

(** X3: a State attached under a name to an Element stays attached there,
    whatever the page does later: neither the API calls nor change events
    ever detach or replace it. *)
Theorem state_attachment_permanent os s e k x :
  state_at s e k = Some x -> state_at (run_ops os s) e k = Some x.
Proof. apply state_at_later, run_ops_el_later. Qed.

(** X4: a Modifier attached under a name to an Element stays attached
    there, whatever the page does later. *)
Theorem modifier_attachment_permanent os s e k m :
  modifier_at s e k = Some m -> modifier_at (run_ops os s) e k = Some m.
Proof. apply modifier_at_later, run_ops_el_later. Qed.

(** X5: a State instance keeps its Element and its callback forever: in
    particular re-registering its template name with addState later does
    not change the callback of an instance made before. *)
Theorem state_instance_fixed os s x st :
  st_heap s !! x = Some st ->
  exists st', st_heap (run_ops os s) !! x = Some st' /\
    st_element st' = st_element st /\ st_callback st' = st_callback st.
Proof. apply (proj1 (run_ops_inst os s)). Qed.

(** X6: a Modifier instance keeps its Element and its callback forever,
    even if addModifier later re-registers its template name. *)
Theorem modifier_instance_fixed os s m mo :
  md_heap s !! m = Some mo ->
  exists mo', md_heap (run_ops os s) !! m = Some mo' /\
    md_element mo' = md_element mo /\ md_callback mo' = md_callback mo.
Proof. apply (proj2 (run_ops_inst os s)). Qed.


(** X8: on every reachable page subscriptions are mirrored and only made
    by attached Modifiers: each Modifier in a State's subscriber list is
    attached to some Element, and a Modifier occurs in a State's
    subscriber list exactly as often as the State occurs in the
    Modifier's state list. *)
Theorem subscriptions_mirrored s :
  reachable s ->
  (forall x m, In m (state_subs s x) -> exists e k, modifier_at s e k = Some m) /\
  (forall x m, count_occ Nat.eq_dec (state_subs s x) m = count_occ Nat.eq_dec (mod_states s m) x).
Proof. apply reachable_subs_ok. Qed.

(** X9: a change event only changes the page and the trace: templates,
    key callback, registry, Elements, State and Modifier instances and
    the handler list are left as they were, also when it throws. *)
Theorem change_event_frame fuel h s :
  frame_view (snd (trigger_change fuel h s)) = frame_view s.
Proof. symmetry. apply trigger_change_frame. Qed.

(** X10: on a reachable page where no template was registered under
    "__proto__" (so every State and Modifier instance has a callback), a
    change event never throws a TypeError: it either completes or exhausts
    its depth bound. *)
Theorem change_event_no_type_error fuel h s :
  reachable s -> state_proto s = None -> modifier_proto s = None ->
  fst (trigger_change fuel h s) = Ok tt \/ fst (trigger_change fuel h s) = Exc OutOfFuel.
Proof.
  intros Hr Hp1 Hp2. pose proof (reachable_wf s Hr) as Hwf. pose proof (reachable_subs_ok s Hr) as Hsub.
  pose proof (reachable_all_callbacks s Hr Hp1 Hp2) as Hac.
  rewrite (trigger_change_elements fuel h s Hr).
  refine (proj2 (for_each_res (fun r => r = Ok tt \/ r = Exc OutOfFuel) _ _ s _ _ s eq_refl));
    [by left|].
  intros i s' Hi Hv. apply (modifyDependents_res s Hwf Hsub Hac); [|done].
  unfold host_elements in Hi. apply List.filter_In in Hi as [_ Hi].
  destruct (el_heap s !! i); [by eexists|discriminate].
Qed.

(** X11: on a reachable page where no template was registered under
    "__proto__", if a rank on Elements decreases from each Element to the
    Elements its States' subscribers belong to, a change event on host [h]
    whose depth bound exceeds the rank of each of [h]'s Elements completes
    without a throw. *)
Theorem change_event_terminates fuel h s (rank : nat -> nat) :
  reachable s -> state_proto s = None -> modifier_proto s = None ->
  (forall e e', In e' (deps s e) -> rank e' < rank e) ->
  (forall i, In i (host_elements s h) -> rank i < fuel) ->
  fst (trigger_change fuel h s) = Ok tt.
Proof.
  intros Hr Hp1 Hp2 Hrank Hfuel. pose proof (reachable_wf s Hr) as Hwf.
  pose proof (reachable_subs_ok s Hr) as Hsub.
  pose proof (reachable_all_callbacks s Hr Hp1 Hp2) as Hac.
  rewrite (trigger_change_elements fuel h s Hr).
  refine (proj2 (for_each_res (fun r => r = Ok tt) _ _ s _ _ s eq_refl)); [done|].
  intros i s' Hi Hv. apply (modifyDependents_ranked s rank Hwf Hsub Hac Hrank); [| by apply Hfuel | done].
  unfold host_elements in Hi. apply List.filter_In in Hi as [_ Hi].
  destruct (el_heap s !! i); [by eexists|discriminate].
Qed.

(** X12: on a reachable page createRelationship does not throw when both
    template names are own properties of their registries and neither is
    the name of a property of [Object.prototype], and no Element is, or is
    about to be, stored under "hasOwnProperty" (which would shadow the
    method [get] calls), whatever the hosts and the inheritState flag. *)
Theorem createRelationship_succeeds s dh sn th mn b :
  reachable s -> is_Some (state_templates s !! sn) -> is_Some (modifier_templates s !! mn) ->
  object_member sn = false -> object_member mn = false ->
  elements s !! "hasOwnProperty" = None -> getElementKey s dh <> "hasOwnProperty" ->
  fst (createRelationship dh sn th mn b s) = Ok tt.
Proof. intros Hr. apply createRelationship_total, reachable_wf, Hr. Qed.

(** X13: a change event on a host that has no Element (no relationship
    ever named it) changes nothing and does not throw. *)
Theorem change_unknown_host fuel h s :
  reachable s -> (forall e el, el_heap s !! e = Some el -> el_host el <> h) ->
  trigger_change fuel h s = (Ok tt, s).
Proof.
  intros Hr Hh. rewrite (trigger_change_elements fuel h s Hr).
  assert (Hn : host_elements s h = []).
  { unfold host_elements. generalize (seq 0 (length (el_heap s))).
    induction l as [|i l IH]; simpl; [done|].
    destruct (el_heap s !! i) as [el|] eqn:E; [|done].
    destruct (Nat.eqb (el_host el) h) eqn:Eh; [|done].
    apply Nat.eqb_eq in Eh. by destruct (Hh i el E). }
  by rewrite Hn.
Qed.


End FieldDependencies.

(** * Concrete pages

    A page of three hosts 0, 1 and 2 with the keys "a", "b" and "c" (every
    other host gets "z"), whose world is a counter: the Modifier callback
    [incr] bumps it, the State callback [raised] holds once it is positive. *)

Definition key_of (h : Host) : string :=
  match h with 0 => "a" | 1 => "b" | 2 => "c" | _ => "z" end.
Definition key_q (h : Host) : string := "q".
Definition always : @StateCallback nat := fun _ _ => true.
Definition raised : @StateCallback nat := fun _ w => Nat.ltb 0 w.
Definition incr : @ModifierCallback nat := fun _ w => S w.

(** The chain host 0 --"open"/"bump"--> host 1 --"raised"/"bump2"--> host 2. *)
Definition ops_chain : list (@op nat) :=
  [OpAddState "open" always; OpAddModifier "bump" incr;
   OpCreateRelationship 0 "open" 1 "bump" false;
   OpAddState "raised" raised; OpAddModifier "bump2" incr;
   OpCreateRelationship 1 "raised" 2 "bump2" false].
Definition s_chain : St := run_ops ops_chain (init key_of 0).



(** One relationship from host 0 to itself. *)
Definition ops_self : list (@op nat) :=
  [OpAddState "open" always; OpAddModifier "bump" incr;
   OpCreateRelationship 0 "open" 0 "bump" false].
Definition s_self : St := run_ops ops_self (init key_of 0).

(** Host 1 depends on host 0 through "show"; host 2 is to inherit it. *)
Definition ops_inh : list (@op nat) :=
  [OpAddState "open" always; OpAddState "ready" always; OpAddModifier "show" incr;
   OpCreateRelationship 0 "open" 1 "show" false].
Definition s_inh : St := run_ops ops_inh (init key_of 0).

(** Two templates and no relationship yet. *)
Definition ops_templates : list (@op nat) :=
  [OpAddState "open" always; OpAddModifier "show" incr].
Definition s_templates : St := run_ops ops_templates (init key_of 0).





(** A relationship towards an unknown modifier name: it throws after it
    attached the State "open" to host 0's Element, which no Modifier
    subscribes to. *)
Definition s_orphan : St :=
  run_ops [OpAddState "open" always; OpCreateRelationship 0 "open" 1 "nomod" false]
          (init key_of 0).

(** Three States attached to host 0's Element in the order "b", "1", "c",
    each always active and none with a subscriber (each relationship throws
    on the unknown modifier name after the attach step). *)
Definition s_forin : St :=
  run_ops [OpAddState "b" always; OpAddState "1" always; OpAddState "c" always;
           OpCreateRelationship 0 "b" 1 "nomod" false;
           OpCreateRelationship 0 "1" 1 "nomod" false;
           OpCreateRelationship 0 "c" 1 "nomod" false]
          (init key_of 0).


Ltac quiet :=
  let p := fresh in let Hp := fresh in
  intros p Hp; simpl in Hp; repeat destruct Hp as [<- | Hp]; try contradiction;
  first [ intros ?; vm_compute; reflexivity
        | let H := fresh in intros H; exfalso; apply H; reflexivity
        | vm_compute; reflexivity ].

Ltac discharge :=
  match goal with
  | |- reachable _ ?s => first [ unfold s; do 2 eexists; reflexivity | exists [], 0; reflexivity ]
  | |- In _ _ => vm_compute; repeat (first [left; reflexivity | right])
  | |- _ <= _ => lia
  | |- _ < _ => lia
  | |- _ <> _ => let H := fresh in intros H; vm_compute in H; discriminate H
  | |- is_Some _ => vm_compute; eexists; reflexivity
  | |- Forall _ _ => repeat constructor; intros ? ?; discriminate
  | |- forall _, _ => solve [ intros ? [] | quiet ]
  | |- _ = _ => vm_compute; reflexivity
  end.



(** * Witnesses and counterexamples *)





(** C3 (amended) on the chain: host 0's fan-out publishes its active
    States. *)
Lemma modifyDependents_publishes_active_witness :
  modifyDependents 3 0 s_chain =
    for_each (active_states s_chain (mkElement 0 [("open", 0)] []))
             (fun p => State_publish 2 (snd p)) s_chain.
Proof.
  destruct (modifyDependents_publishes_active key_of s_chain 0 (mkElement 0 [("open", 0)] []) 2)
    as [H _]; [ discharge .. | exact H ].
Defined.

(** C3: host 0's Element carries the States "b", "1" and "c", attached in
    this order, all active and none with a subscriber; a change on host 0
    publishes all three, and "1" (an array index name) first. *)
Lemma publish_order_and_unsubscribed :
  el_states (nth 0 (el_heap s_forin) (mkElement 0 [] [])) = [("b", 0); ("1", 1); ("c", 2)] /\
  state_subs s_forin 0 = [] /\ state_subs s_forin 1 = [] /\ state_subs s_forin 2 = [] /\
  fst (trigger_change 2 0 s_forin) = Ok tt /\
  trace (snd (trigger_change 2 0 s_forin)) =
    trace s_forin ++ [EvPublish 1; EvPublish 0; EvPublish 2].
Proof. vm_compute. repeat split. Qed.

(** C4: host 2 takes over "show" from host 1, which inherited nothing yet
    but carries the Modifier "show" subscribed to host 0's "open": host 2's
    new Modifier subscribes to "ready" and then to "open". *)
Lemma createRelationship_inheritState_witness :
  exists s2, createRelationship 1 "ready" 2 "show" true s_inh = (Ok tt, s2) /\
    mod_states s2 1 = [1; 0].
Proof.
  set (s1 := snd (createRelationship 1 "ready" 2 "show" false s_inh)).
  destruct (createRelationship_inheritState key_of s_inh 1 "ready" 2 "show" s1)
    as (d & t & m & _ & Hd & Ht & Hm & _ & H); [ discharge .. | ].
  specialize (Hd ltac:(discharge)). specialize (Ht ltac:(discharge)).
  assert (Ed : d = 1) by (vm_compute in Hd; congruence). subst d.
  assert (Et : t = 2) by (vm_compute in Ht; congruence). subst t.
  assert (Em : m = 1) by (vm_compute in Hm; congruence). subst m.
  assert (Em' : modifier_at s1 1 "show" = Some 0) by (vm_compute; reflexivity).
  rewrite Em' in H. destruct H as (s2 & E & _ & _ & Hms & _).
  exists s2. split; [exact E|]. rewrite Hms. vm_compute. reflexivity.
Defined.







(** C8: after [setElementKeyCallback key_of] and an [addState], the keys are
    computed with [key_of]. *)
Lemma setElementKeyCallback_spec_witness :
  getElementKey (run_ops [OpAddState "x" always]
                   (snd (setElementKeyCallback key_of (init key_q 0)))) = key_of.
Proof.
  destruct (setElementKeyCallback_spec (init key_q 0) key_of [OpAddState "x" always] 0)
    as [H _]; [ discharge .. | exact H ].
Defined.



(** C10 on the chain: the State "raised" attached to host 1's Element
    points back to it. *)
Lemma attached_back_references_witness :
  exists st, st_heap s_chain !! 1 = Some st /\ st_element st = Some 1.
Proof.
  destruct (attached_back_references key_of s_chain) as [Hs _]; [ discharge .. | ].
  apply (Hs 1 "raised" 1). vm_compute. reflexivity.
Defined.

(** ** Witnesses of the further properties *)

(** Later steps on the chain page: re-registered templates, a change
    event, another relationship with inheritance and a user edit. *)
Definition ops_later : list (@op nat) :=
  [OpAddState "open" raised; OpAddModifier "bump" incr; OpChange 3 0;
   OpCreateRelationship 0 "open" 1 "bump" true; OpUserEdit S].

(** X1 on the chain: three Elements, three handlers. *)
Lemma change_handler_per_element_witness :
  handlers s_chain = imap (fun i el => (el_host el, i)) (el_heap s_chain).
Proof. apply (change_handler_per_element key_of s_chain). discharge. Defined.

(** X2 on the chain: a change of host 0 runs the cascade of Element 0. *)
Lemma change_runs_host_elements_witness :
  trigger_change 3 0 s_chain = for_each (host_elements s_chain 0) (modifyDependents 3) s_chain.
Proof. apply (change_runs_host_elements key_of 3 0 s_chain). discharge. Defined.

(** X3: the State "open" of host 0 survives the later steps. *)
Lemma state_attachment_permanent_witness :
  state_at (run_ops ops_later s_chain) 0 "open" = Some 0.
Proof. apply (state_attachment_permanent ops_later s_chain 0 "open" 0). discharge. Defined.

(** X4: the Modifier "bump" of host 1 survives the later steps. *)
Lemma modifier_attachment_permanent_witness :
  modifier_at (run_ops ops_later s_chain) 1 "bump" = Some 0.
Proof. apply (modifier_attachment_permanent ops_later s_chain 1 "bump" 0). discharge. Defined.

(** X5: State 0 keeps the callback [always] after "open" is re-registered. *)
Lemma state_instance_fixed_witness :
  exists st', st_heap (run_ops ops_later s_chain) !! 0 = Some st' /\
    st_element st' = Some 0 /\ st_callback st' = Some always.
Proof.
  apply (state_instance_fixed ops_later s_chain 0 (mkState (Some 0) (Some always) [0])).
  discharge.
Defined.

(** X6: Modifier 0 keeps its Element and callback after "bump" is re-registered. *)
Lemma modifier_instance_fixed_witness :
  exists mo', md_heap (run_ops ops_later s_chain) !! 0 = Some mo' /\
    md_element mo' = Some 1 /\ md_callback mo' = Some incr.
Proof.
  apply (modifier_instance_fixed ops_later s_chain 0 (mkModifier (Some 1) (Some incr) [0])).
  discharge.
Defined.


(** X8 on the page with an inherited subscription. *)
Lemma subscriptions_mirrored_witness :
  (forall x m, In m (state_subs s_inh x) -> exists e k, modifier_at s_inh e k = Some m) /\
  (forall x m, count_occ Nat.eq_dec (state_subs s_inh x) m = count_occ Nat.eq_dec (mod_states s_inh m) x).
Proof. apply (subscriptions_mirrored key_of s_inh). discharge. Defined.

(** X10 on the self-loop page: the event exhausts its bound. *)
Lemma change_event_no_type_error_witness :
  fst (trigger_change 3 0 s_self) = Ok tt \/ fst (trigger_change 3 0 s_self) = Exc OutOfFuel.
Proof. apply (change_event_no_type_error key_of 3 0 s_self); discharge. Defined.

(** X11 on the chain, ranked 2, 1, 0 along the chain. *)
Lemma change_event_terminates_witness : fst (trigger_change 3 0 s_chain) = Ok tt.
Proof.
  apply (change_event_terminates key_of 3 0 s_chain (fun e => 2 - e)).
  - discharge.
  - discharge.
  - discharge.
  - intros e e' H. destruct e as [|[|[|e]]]; vm_compute in H;
      repeat destruct H as [<-|H]; try lia; contradiction.
  - intros i H. vm_compute in H. destruct H as [<-|[]]. lia.
Defined.

(** X12 on the page with both templates registered. *)
Lemma createRelationship_succeeds_witness :
  fst (createRelationship 0 "open" 1 "show" true s_templates) = Ok tt.
Proof. apply (createRelationship_succeeds key_of s_templates 0 "open" 1 "show" true); discharge. Defined.

(** X13: host 5 has no Element on the chain page. *)
Lemma change_unknown_host_witness : trigger_change 3 5 s_chain = (Ok tt, s_chain).
Proof.
  apply (change_unknown_host key_of 3 5 s_chain).
  - discharge.
  - intros e el H. destruct e as [|[|[|e]]]; vm_compute in H; try discriminate;
      injection H as <-; simpl; lia.
Defined.
